(** * Apleno comment board: the request handlers of [server (1).js]

    A shallow embedding of the Express application: the [sanitize] helper,
    the two comment handlers, the error middleware and the route table,
    over explicit models of what the handlers touch (JavaScript strings and
    coercions, the [comments] table behind the two SQL statements, the
    request limiter), followed by the properties of the written
    specification.

    JavaScript strings are sequences of UTF-16 code units; [length],
    [slice], [trim], [replace] and the regular expressions of the source
    (none carries the [u] flag) all work on code units.  The table holds
    its texts as UTF-8 and its ids as 64-bit integers, and what comes back
    from it is a JavaScript string and a JavaScript number again. *)

From stdpp Require Import gmap list sorting strings.

Set Default Proof Using "Type".
Set Warnings "-register-all,-clear-no-such-hyp".

(** ** JavaScript strings *)

Module JS.

(** A code unit; a well-formed one is below 65536. *)
Definition unit16 : Type := N.
Definition jsstring : Type := list unit16.

(** An ASCII literal as a JavaScript string. *)
Definition str (s : string) : jsstring :=
  (λ a, Ascii.N_of_ascii a) <$> String.list_ascii_of_string s.

(** WhiteSpace and LineTerminator of ECMAScript: what [trim] strips, what
    [parseInt] skips and what the class [\s] matches. *)
Definition is_space (c : unit16) : bool :=
  ((c =? 9) || (c =? 10) || (c =? 11) || (c =? 12) || (c =? 13) ||
   (c =? 32) || (c =? 160) || (c =? 5760) ||
   ((8192 <=? c) && (c <=? 8202)) ||
   (c =? 8232) || (c =? 8233) || (c =? 8239) || (c =? 8287) ||
   (c =? 12288) || (c =? 65279))%N.

Definition non_space (c : unit16) : bool := negb (is_space c).

Fixpoint trim_start (s : jsstring) : jsstring :=
  match s with
  | c :: s' => if is_space c then trim_start s' else s
  | [] => []
  end.

Definition trim_end (s : jsstring) : jsstring :=
  reverse (trim_start (reverse s)).

(** [String.prototype.trim] *)
Definition trim (s : jsstring) : jsstring := trim_end (trim_start s).

(** [s.slice(0, n)] for a non-negative literal [n] *)
Definition slice0 (n : nat) (s : jsstring) : jsstring := take n s.
#[global] Arguments slice0 : simpl never.

(** [s.replace(/c/g, rep)] for a one-character pattern and a replacement
    text without [$]: every occurrence of [c], left to right. *)
Definition replace_all (c : unit16) (rep : jsstring) (s : jsstring)
  : jsstring :=
  s ≫= (λ x, if (x =? c)%N then rep else [x]).

(** *** Values reaching the handlers

    [req.body] comes from [JSON.parse] and [req.query] from the query-string
    parser: null, booleans, numbers, strings, arrays and plain objects, and
    [undefined] for a property that is not there.  The handlers observe a
    number of the body only through its truthiness and its decimal text, so
    a number is represented by these two observations. *)
Inductive value : Type :=
| VUndefined
| VNull
| VBool (b : bool)
| VNum (falsy : bool) (text : jsstring)
| VStr (s : jsstring)
| VArr (items : list value)
| VObj (props : list (jsstring * value)).

(** ToBoolean *)
Definition truthy (v : value) : bool :=
  match v with
  | VUndefined | VNull => false
  | VBool b => b
  | VNum falsy _ => negb falsy
  | VStr s => negb (bool_decide (s = []))
  | VArr _ | VObj _ => true
  end.

(** [a || b] *)
Definition or_else (a b : value) : value := if truthy a then a else b.

Fixpoint own (props : list (jsstring * value)) (k : jsstring)
  : option value :=
  match props with
  | [] => None
  | (k', v) :: rest => if bool_decide (k' = k) then Some v else own rest k
  end.

(** [v.k] for a property name that no prototype defines ([name], [email],
    [message], [limit], [offset]); [None] stands for the TypeError of a
    property read on [undefined] or [null]. *)
Definition get (v : value) (k : jsstring) : option value :=
  match v with
  | VUndefined | VNull => None
  | VObj props => Some (default VUndefined (own props k))
  | _ => Some VUndefined
  end.

(** ToString; [None] stands for a TypeError.  A parsed object carries no
    functions, so an own [toString] property hides [Object.prototype]'s
    with a value that cannot be called.  An array goes through [join]:
    elements separated by commas, [undefined] and [null] as empty text. *)
Fixpoint ToString (v : value) : option jsstring :=
  match v with
  | VUndefined => Some (str "undefined")
  | VNull => Some (str "null")
  | VBool b => Some (if b then str "true" else str "false")
  | VNum _ text => Some text
  | VStr s => Some s
  | VArr items =>
      (fix join (l : list value) : option jsstring :=
         match l with
         | [] => Some []
         | x :: l' =>
             a ← match x with
                 | VUndefined | VNull => Some []
                 | _ => ToString x
                 end;
             match l' with
             | [] => Some a
             | _ => b ← join l'; Some (a ++ str "," ++ b)
             end
         end) items
  | VObj props =>
      match own props (str "toString") with
      | Some _ => None
      | None => Some (str "[object Object]")
      end
  end.

(** [v.toString()]: the method every value but [undefined] and [null]
    inherits; it yields the text of [ToString]. *)
Definition toString (v : value) : option jsstring :=
  match v with
  | VUndefined | VNull => None
  | _ => ToString v
  end.

(** *** Numbers

    The numbers the list handler computes with are integers, the two
    infinities and NaN.  Negative zero is not told apart from zero: both are
    falsy, which is all the handler asks of a zero. *)
Inductive number : Type :=
| NaN
| Fin (z : Z)
| PosInf
| NegInf.

(** The double nearest to an integer, ties to even; integers of magnitude
    below 2^53 are exact, those that round to 2^1024 overflow. *)
Definition to_double (z : Z) : number :=
  let a := Z.abs z in
  if (a <? 2 ^ 53)%Z then Fin z else
  let e := (Z.log2 a - 52)%Z in
  let m := (a / 2 ^ e)%Z in
  let r := (a mod 2 ^ e)%Z in
  let h := (2 ^ (e - 1))%Z in
  let m' := if ((h <? r) || ((r =? h) && Z.odd m))%Z then (m + 1)%Z else m in
  let v := (m' * 2 ^ e)%Z in
  if (2 ^ 1024 <=? v)%Z
  then (if (z <? 0)%Z then NegInf else PosInf)
  else Fin (Z.sgn z * v).

Definition is_digit (c : unit16) : bool := ((48 <=? c) && (c <=? 57))%N.

Fixpoint digits (s : jsstring) : jsstring :=
  match s with
  | c :: s' => if is_digit c then c :: digits s' else []
  | [] => []
  end.

Definition digits_value (ds : jsstring) : Z :=
  foldl (λ acc c, acc * 10 + (Z.of_N c - 48))%Z 0%Z ds.

(** [parseInt(s, 10)]: leading white space skipped, an optional sign, then
    the longest run of decimal digits; NaN when that run is empty. *)
Definition parseInt10 (s : jsstring) : number :=
  let s1 := trim_start s in
  let '(neg, s2) :=
    match s1 with
    | c :: t =>
        if (c =? 45)%N then (true, t)
        else if (c =? 43)%N then (false, t)
        else (false, s1)
    | [] => (false, s1)
    end in
  match digits s2 with
  | [] => NaN
  | ds => let n := digits_value ds in to_double (if neg then - n else n)%Z
  end.

(** [n || d] on numbers: NaN and zero are falsy. *)
Definition num_or (n d : number) : number :=
  match n with
  | NaN | Fin 0 => d
  | _ => n
  end.

Definition num_leb (a b : number) : bool :=
  match a, b with
  | NaN, _ | _, NaN => false
  | NegInf, _ | _, PosInf => true
  | _, NegInf | PosInf, _ => false
  | Fin x, Fin y => (x <=? y)%Z
  end.

(** [Math.max] and [Math.min] of two arguments *)
Definition Math_max (a b : number) : number :=
  match a, b with
  | NaN, _ | _, NaN => NaN
  | _, _ => if num_leb a b then b else a
  end.

Definition Math_min (a b : number) : number :=
  match a, b with
  | NaN, _ | _, NaN => NaN
  | _, _ => if num_leb a b then a else b
  end.

(** *** JSON sent back

    What [res.json] puts on the wire: [JSON.stringify] writes a number that
    is not finite as [null]. *)
Inductive json : Type :=
| JNull
| JBool (b : bool)
| JNum (z : Z)
| JStr (s : jsstring)
| JArr (items : list json)
| JObj (members : list (jsstring * json)).

Definition json_of_number (n : number) : json :=
  match n with
  | Fin z => JNum z
  | _ => JNull
  end.

End JS.
Import JS.

(** ** [sanitize] (lines 73-80) *)

Definition amp : unit16 := 38%N.
Definition lt : unit16 := 60%N.
Definition gt : unit16 := 62%N.
Definition quot : unit16 := 34%N.
Definition apos : unit16 := 39%N.

Definition sanitize (s : jsstring) : jsstring :=
  replace_all apos (str "&#39;")
    (replace_all quot (str "&quot;")
      (replace_all gt (str "&gt;")
        (replace_all lt (str "&lt;")
          (replace_all amp (str "&amp;") s)))).


(** ** Regular expressions

    The one pattern of the source, [/^\S+@\S+\.\S+$/], is written without
    flags: [^] and [$] tie a match to the whole input, so [test] asks
    whether the whole string belongs to the language of what stands
    between them.  Patterns are matched by derivatives. *)

Module Regex.

Inductive regex : Type :=
| Void
| Eps
| Class (p : unit16 → bool)
| Cat (r1 r2 : regex)
| Alt (r1 r2 : regex)
| Star (r : regex).

(** [r+] *)
Definition Plus (r : regex) : regex := Cat r (Star r).

Fixpoint nullable (r : regex) : bool :=
  match r with
  | Void | Class _ => false
  | Eps | Star _ => true
  | Cat r1 r2 => nullable r1 && nullable r2
  | Alt r1 r2 => nullable r1 || nullable r2
  end.

Fixpoint deriv (c : unit16) (r : regex) : regex :=
  match r with
  | Void | Eps => Void
  | Class p => if p c then Eps else Void
  | Cat r1 r2 =>
      Alt (Cat (deriv c r1) r2) (if nullable r1 then deriv c r2 else Void)
  | Alt r1 r2 => Alt (deriv c r1) (deriv c r2)
  | Star r1 => Cat (deriv c r1) (Star r1)
  end.

Fixpoint matches (r : regex) (s : jsstring) : bool :=
  match s with
  | [] => nullable r
  | c :: s' => matches (deriv c r) s'
  end.

(** The language of a pattern. *)
Inductive lang : regex → jsstring → Prop :=
| lang_eps : lang Eps []
| lang_class p c : p c = true → lang (Class p) [c]
| lang_cat r1 r2 s1 s2 :
    lang r1 s1 → lang r2 s2 → lang (Cat r1 r2) (s1 ++ s2)
| lang_alt_l r1 r2 s : lang r1 s → lang (Alt r1 r2) s
| lang_alt_r r1 r2 s : lang r2 s → lang (Alt r1 r2) s
| lang_star_nil r : lang (Star r) []
| lang_star_app r s1 s2 :
    lang r s1 → lang (Star r) s2 → lang (Star r) (s1 ++ s2).

End Regex.
Import Regex.

(** [\S+@\S+\.\S+] *)
Definition email_pattern : regex :=
  Cat (Plus (Class non_space))
    (Cat (Class (N.eqb 64))
      (Cat (Plus (Class non_space))
        (Cat (Class (N.eqb 46))
          (Plus (Class non_space))))).

(** [/^\S+@\S+\.\S+$/.test(email)] *)
Definition email_test (email : jsstring) : bool := matches email_pattern email.

(** ** The [comments] table (lines 35-42) and the two statements on it

    The engine is a dependency; the two statements of the source are given
    the meaning SQLite documents for them.  [name] and [email] may be NULL;
    [message] and [date] may not.  The handlers never write [created_at]: it
    holds the text of [CURRENT_TIMESTAMP], which has ASCII characters only,
    and text is ordered character by character.  A row is what the table
    holds: its id is a 64-bit integer, its texts are as they read back. *)

Module Sqlite.

Record row : Type := {
  r_id : Z;
  r_name : option jsstring;
  r_email : option jsstring;
  r_message : jsstring;
  r_date : jsstring;
  r_created_at : jsstring
}.

(** A statement handed to the database, with its bound parameters. *)
Inductive statement : Type :=
| SelectComments (limit offset : number)
| InsertComment (name email message date : jsstring).

(** The database file: the rows of [comments], the AUTOINCREMENT counter
    (the largest id ever given) and the statements run so far. *)
Record database : Type := {
  rows : list row;
  sequence : Z;
  journal : list statement
}.

Fixpoint text_compare (a b : jsstring) : comparison :=
  match a, b with
  | [], [] => Eq
  | [], _ :: _ => Lt
  | _ :: _, [] => Gt
  | x :: a', y :: b' =>
      match (x ?= y)%N with
      | Eq => text_compare a' b'
      | c => c
      end
  end.

(** [ORDER BY created_at DESC, id DESC]: [a] comes no later than [b]. *)
Definition precedes (a b : row) : bool :=
  match text_compare (r_created_at a) (r_created_at b) with
  | Gt => true
  | Lt => false
  | Eq => (r_id b <=? r_id a)%Z
  end.

Definition newest_first (a b : row) : Prop := precedes a b = true.

#[global] Instance newest_first_dec : RelDecision newest_first :=
  λ a b, decide (precedes a b = true).

Definition order_by_created_at_desc_id_desc (l : list row) : list row :=
  merge_sort newest_first l.

(** The operand of LIMIT or OFFSET has to be, or convert without loss to,
    a 64-bit integer. *)
Definition sql_integer (n : number) : option Z :=
  match n with
  | Fin z => if ((- 2 ^ 63 <=? z) && (z <? 2 ^ 63))%Z then Some z else None
  | _ => None
  end.

(** A negative LIMIT is no limit, a negative OFFSET no offset. *)
Definition sql_limit (n : Z) (l : list row) : list row :=
  if (n <? 0)%Z then l else take (Z.to_nat n) l.

Definition sql_offset (n : Z) (l : list row) : list row :=
  drop (Z.to_nat n) l.

(** [db.all] of lines 90-95.  [ok] tells whether the engine could carry the
    statement out (it cannot when the file is unreadable, say); [None] is
    the [err] of the callback. *)
Definition all (ok : bool) (db : database) (limit offset : number)
  : database * option (list row) :=
  let db' := {| rows := rows db; sequence := sequence db;
                journal := journal db ++ [SelectComments limit offset] |} in
  if ok then
    (db', l ← sql_integer limit; o ← sql_integer offset;
          Some (sql_limit l (sql_offset o
                  (order_by_created_at_desc_id_desc (rows db)))))
  else (db', None).

Definition largest_id (l : list row) : Z :=
  foldr (λ r acc, Z.max (r_id r) acc) 0%Z l.

Definition is_high_surrogate (c : unit16) : bool :=
  ((55296 <=? c) && (c <=? 56319))%N.

Definition is_low_surrogate (c : unit16) : bool :=
  ((56320 <=? c) && (c <=? 57343))%N.

(** What the table keeps of a JavaScript string bound to a statement.  The
    string is handed to the engine as UTF-8 and read back from UTF-8: a
    surrogate pair goes through, and a surrogate that is not half of a pair,
    which has no UTF-8 form, is written as U+FFFD. *)
Fixpoint stored_text (s : jsstring) : jsstring :=
  match s with
  | [] => []
  | c :: s' =>
      if is_high_surrogate c then
        match s' with
        | c' :: s'' =>
            if is_low_surrogate c' then c :: c' :: stored_text s''
            else 65533%N :: stored_text s'
        | [] => [65533%N]
        end
      else if is_low_surrogate c then 65533%N :: stored_text s'
      else c :: stored_text s'
  end.

(** An integer of the engine as JavaScript receives it: a number, that is
    the double nearest to it.  Every 64-bit integer is within the range of
    the doubles; those of magnitude above 2^53 need not be exact. *)
Definition js_number (z : Z) : Z :=
  match to_double z with
  | Fin v => v
  | _ => z
  end.

(** [db.run] of lines 133-134; the result is [this.lastID], a number.
    [timestamp] is the engine's [CURRENT_TIMESTAMP].  The id of the new row
    is one more than the largest the table has seen; ids are 64-bit, and the
    insertion fails (SQLITE_FULL) once the largest of them has been given.
    The four bound texts are kept as [stored_text] has them. *)
Definition run (ok : bool) (timestamp : jsstring) (db : database)
    (name email message date : jsstring) : database * option Z :=
  let j := journal db ++ [InsertComment name email message date] in
  let rowid := (Z.max (sequence db) (largest_id (rows db)) + 1)%Z in
  if ok && (rowid <=? 2 ^ 63 - 1)%Z then
    ({| rows := rows db ++
                [{| r_id := rowid; r_name := Some (stored_text name);
                    r_email := Some (stored_text email);
                    r_message := stored_text message;
                    r_date := stored_text date;
                    r_created_at := timestamp |}];
        sequence := rowid; journal := j |}, Some (js_number rowid))
  else ({| rows := rows db; sequence := sequence db; journal := j |}, None).

End Sqlite.
Import Sqlite.

(** ** The request limiter

    [express-rate-limit] is a dependency; the source configures it (line 68)
    and places it (line 115).  A clock reading is a number of
    milliseconds. *)

Module RateLimit.

Record options : Type := { windowMs : Z; max : nat }.

(** Modelled from the spec: the code of the limiter is not in the
    repository.  The specification describes a fixed-window limiter, "a
    counter reset every fixed time interval, rejecting requests once a
    per-window cap is exceeded", that counts per limiter scope: the
    counters are the window they belong to and the hits of each scope in
    it. *)
Record counters : Type := {
  window : Z;
  hits : gmap jsstring nat
}.

Definition fresh : counters := {| window := 0; hits := ∅ |}.

(** Modelled from the spec: the limiter at one request of [scope] at time
    [now].  The counters start afresh when the request falls in another
    window; the hit is counted; the request passes unless the count exceeds
    the cap. *)
Definition hit (o : options) (now : Z) (scope : jsstring) (c : counters)
  : counters * bool :=
  let w := (now / windowMs o)%Z in
  let h := if bool_decide (window c = w) then hits c else ∅ in
  let n := S (default 0 (h !! scope)) in
  ({| window := w; hits := <[scope := n]> h |}, bool_decide (n ≤ max o)).

End RateLimit.

(** Line 68 *)
Definition commentsLimiter : RateLimit.options :=
  {| RateLimit.windowMs := 60 * 1000; RateLimit.max := 30 |}.

(** ** Responses *)

(** What goes back to the client: the status code and, when the body is a
    JSON document written by [res.json], that document. *)
Record response : Type := { status : Z; body : option json }.

(** [res.status(code).json(j)] *)
Definition res_json (code : Z) (j : json) : response :=
  {| status := code; body := Some j |}.

(** [{ ok: false, error }] and [{ ok: false, error, field }] *)
Definition failure (error : string) : json :=
  JObj [(str "ok", JBool false); (str "error", JStr (str error))].

Definition failure_on (error field : string) : json :=
  JObj [(str "ok", JBool false); (str "error", JStr (str error));
        (str "field", JStr (str field))].

(** Whether a document has a member named [k], at any depth. *)
Fixpoint mentions (k : jsstring) (j : json) : bool :=
  match j with
  | JArr items => existsb (mentions k) items
  | JObj members =>
      existsb (λ m, bool_decide (fst m = k) || mentions k (snd m)) members
  | _ => false
  end.

(** The member named [k] of an object. *)
Fixpoint member (k : jsstring) (members : list (jsstring * json))
  : option json :=
  match members with
  | [] => None
  | (k', v) :: rest => if bool_decide (k' = k) then Some v else member k rest
  end.

(** ** The handlers *)

(** ['Anónimo'] *)
Definition Anonimo : jsstring := str "An" ++ [243%N] ++ str "nimo".

(** [name || 'Anónimo'] *)
Definition or_Anonimo (name : option jsstring) : jsstring :=
  match name with
  | Some (c :: s) => c :: s
  | _ => Anonimo
  end.

(** The error middleware (lines 145-151).  Of an error it asks whether it
    is a SyntaxError and whether it has a [body] property; the JSON body
    parser raises such an error for a body it cannot parse. *)
Record error : Type := { instanceof_SyntaxError : bool; has_body : bool }.

Definition TypeError : error :=
  {| instanceof_SyntaxError := false; has_body := false |}.

Definition error_middleware (err : error) : response :=
  if instanceof_SyntaxError err && has_body err
  then res_json 400 (failure "JSON_INVALID_BODY")
  else res_json 500 (failure "INTERNAL_ERROR").

(** [GET /api/health] (lines 82-84) *)
Definition get_health (dbReady : bool) : response :=
  res_json 200
    (JObj [(str "ok", JBool true); (str "db", JBool dbReady);
           (str "message", JStr (str "Apleno API funcionando"))]).

(** Line 88; [None] when the coercion of the parameter throws. *)
Definition list_limit (query : value) : option number :=
  raw ← get query (str "limit");
  text ← ToString (or_else raw (VStr (str "20")));
  Some (Math_max (Fin 1)
          (Math_min (num_or (parseInt10 text) (Fin 20)) (Fin 100))).

(** Line 89 *)
Definition list_offset (query : value) : option number :=
  raw ← get query (str "offset");
  text ← ToString (or_else raw (VStr (str "0")));
  Some (Math_max (Fin 0) (num_or (parseInt10 text) (Fin 0))).

(** Lines 101-108; [r.id] reaches the handler as a number. *)
Definition list_view (r : row) : json :=
  JObj [(str "id", JNum (js_number (r_id r)));
        (str "name", JStr (or_Anonimo (r_name r)));
        (str "message", JStr (sanitize (r_message r)));
        (str "date", JStr (r_date r));
        (str "created_at", JStr (r_created_at r))].

(** [GET /api/comments] (lines 87-112); [None] when the handler throws. *)
Definition get_comments (ok : bool) (db : database) (query : value)
  : option (database * response) :=
  limit ← list_limit query;
  offset ← list_offset query;
  let '(db', result) := Sqlite.all ok db limit offset in
  Some (db',
        match result with
        | None => res_json 500 (failure "DB_ERROR")
        | Some rows =>
            res_json 200
              (JObj [(str "ok", JBool true);
                     (str "items", JArr (list_view <$> rows));
                     (str "limit", json_of_number limit);
                     (str "offset", json_of_number offset)])
        end).

(** [(req.body.k || '').toString()] *)
Definition field_text (body : value) (k : string) : option jsstring :=
  raw ← get body (str k);
  toString (or_else raw (VStr [])).

(** Line 140 *)
Definition item_view (id : Z) (name message date : jsstring) : json :=
  JObj [(str "id", JNum id);
        (str "name", JStr (or_Anonimo (Some name)));
        (str "message", JStr (sanitize message));
        (str "date", JStr date)].

(** Lines 120-141 of the create handler: the checks and the insertion, on
    the three fields as lines 116-118 leave them.  [date] is
    [new Date().toISOString()], [timestamp] the engine's clock. *)
Definition create_comment (ok : bool) (timestamp date : jsstring)
    (db : database) (name email message : jsstring) : database * response :=
  if bool_decide (message = []) || (length message <? 5) then
    (db, res_json 400 (failure_on "VALIDATION_MIN_LENGTH" "message"))
  else if 2000 <? length message then
    (db, res_json 400 (failure_on "VALIDATION_MAX_LENGTH" "message"))
  else if negb (bool_decide (email = [])) && negb (email_test email) then
    (db, res_json 400 (failure_on "VALIDATION_EMAIL" "email"))
  else
    let '(db', lastID) :=
      Sqlite.run ok timestamp db name email message date in
    (db',
     match lastID with
     | None => res_json 500 (failure "DB_ERROR")
     | Some id =>
         res_json 201
           (JObj [(str "ok", JBool true);
                  (str "item", item_view id name message date)])
     end).

(** [POST /api/comments] after the limiter (lines 115-142); [None] when
    reading a field throws. *)
Definition post_comments (ok : bool) (timestamp date : jsstring)
    (db : database) (body : value) : option (database * response) :=
  name ← (λ s, slice0 100 (trim s)) <$> field_text body "name";
  email ← (λ s, slice0 150 (trim s)) <$> field_text body "email";
  message ← trim <$> field_text body "message";
  Some (create_comment ok timestamp date db name email message).

#[global] Arguments create_comment : simpl never.
#[global] Arguments post_comments : simpl never.

(** ** The application *)

Inductive route : Type :=
| GET_health
| GET_comments
| POST_comments
| Unrouted.

#[global] Instance route_eq_dec : EqDecision route.
Proof. solve_decision. Defined.

(** What [express.json] (line 70) leaves of the body: an error, or
    [req.body]. *)
Inductive parsed : Type :=
| Unparsed (err : error)
| Parsed (body : value).

Record request : Type := {
  req_route : route;
  req_scope : jsstring;
  req_query : value;
  req_body : parsed
}.

(** What a request finds outside the program: the clock of the limiter,
    [new Date().toISOString()], the engine's [CURRENT_TIMESTAMP] and
    whether the engine can carry a statement out. *)
Record environment : Type := {
  clock : Z;
  date_now : jsstring;
  current_timestamp : jsstring;
  storage_ok : bool
}.

Record state : Type := {
  db : database;
  dbReady : bool;
  limiter : RateLimit.counters
}.

(** A handler that throws leaves the state as it was and hands its error to
    the error middleware. *)
Definition settle (st : state) (r : option (database * response))
  : state * response :=
  match r with
  | Some (db', res) =>
      ({| db := db'; dbReady := dbReady st; limiter := limiter st |}, res)
  | None => (st, error_middleware TypeError)
  end.

(** The body parser first, then the route table; the limiter stands before
    the handler of [POST /api/comments] alone (line 115).  A request the
    limiter stops, and one no route matches, is answered by the library,
    not with a JSON document of the program. *)
Definition app (e : environment) (st : state) (req : request)
  : state * response :=
  match req_body req with
  | Unparsed err => (st, error_middleware err)
  | Parsed body =>
      match req_route req with
      | GET_health => (st, get_health (dbReady st))
      | GET_comments =>
          settle st (get_comments (storage_ok e) (db st) (req_query req))
      | POST_comments =>
          let '(c, pass) :=
            RateLimit.hit commentsLimiter (clock e) (req_scope req)
              (limiter st) in
          let st1 := {| db := db st; dbReady := dbReady st; limiter := c |} in
          if pass then
            settle st1
              (post_comments (storage_ok e) (current_timestamp e)
                 (date_now e) (db st) body)
          else (st1, {| status := 429; body := None |})
      | Unrouted => (st, {| status := 404; body := None |})
      end
  end.

(** A run of the application: requests one after the other, each with the
    environment it meets. *)
Fixpoint run_app (st : state) (l : list (environment * request))
  : state * list response :=
  match l with
  | [] => (st, [])
  | (e, req) :: l' =>
      let '(st1, r) := app e st req in
      let '(st2, rs) := run_app st1 l' in
      (st2, r :: rs)
  end.

(** ** Notions of the specification *)

(** "non-space characters, '@', non-space characters, '.', non-space
    characters" *)
Definition email_shape (s : jsstring) : Prop :=
  ∃ a b c, s = a ++ [64%N] ++ b ++ [46%N] ++ c ∧
           a ≠ [] ∧ b ≠ [] ∧ c ≠ [] ∧
           Forall (λ x, is_space x = false) (a ++ b ++ c).

(** The five replacements as one table: what becomes of one character. *)
Definition escape (c : unit16) : jsstring :=
  if (c =? amp)%N then str "&amp;"
  else if (c =? lt)%N then str "&lt;"
  else if (c =? gt)%N then str "&gt;"
  else if (c =? quot)%N then str "&quot;"
  else if (c =? apos)%N then str "&#39;"
  else [c].

Definition entities : list jsstring :=
  [str "&amp;"; str "&lt;"; str "&gt;"; str "&quot;"; str "&#39;"].

(** The limit and the offset a parsed parameter stands for: the bounds of
    the specification, with the default in the place of a value that is
    not a number or is zero. *)
Definition effective_limit (n : number) : Z :=
  match n with
  | NaN | Fin 0 => 20
  | Fin z => Z.max 1 (Z.min z 100)
  | PosInf => 100
  | NegInf => 1
  end.

Definition effective_offset (n : number) : number :=
  match n with
  | NaN | NegInf => Fin 0
  | Fin z => Fin (Z.max 0 z)
  | PosInf => PosInf
  end.

(** The comment views of a response: its [item], or the elements of its
    [items]. *)
Definition response_views (r : response) : list json :=
  match body r with
  | Some (JObj members) =>
      match member (str "item") members, member (str "items") members with
      | Some v, _ => [v]
      | None, Some (JArr l) => l
      | _, _ => []
      end
  | _ => []
  end.

(** The member named [k] of a view. *)
Definition view_member (k : string) (v : json) : option json :=
  match v with
  | JObj members => member (str k) members
  | _ => None
  end.

(** The four refusals of a create request that the client is to blame
    for. *)
Definition refusals : list response :=
  [res_json 400 (failure_on "VALIDATION_MIN_LENGTH" "message");
   res_json 400 (failure_on "VALIDATION_MAX_LENGTH" "message");
   res_json 400 (failure_on "VALIDATION_EMAIL" "email");
   res_json 400 (failure "JSON_INVALID_BODY")].

(** The window of the limiter a request falls in. *)
Definition window_of (e : environment) : Z :=
  (clock e / RateLimit.windowMs commentsLimiter)%Z.

(** A create request of [scope] that gets as far as the limiter. *)
Definition is_create (scope : jsstring) (req : request) : bool :=
  match req_route req, req_body req with
  | POST_comments, Parsed _ => bool_decide (req_scope req = scope)
  | _, _ => false
  end.

(** How many hits of [scope] the limiter has counted in window [w]. *)
Definition counted (w : Z) (scope : jsstring) (c : RateLimit.counters)
  : nat :=
  if bool_decide (RateLimit.window c = w)
  then default 0 (RateLimit.hits c !! scope) else 0.

(** How many create requests of [scope] a run lets through the limiter. *)
Fixpoint let_through (scope : jsstring) (st : state)
    (l : list (environment * request)) : nat :=
  match l with
  | [] => 0
  | (e, req) :: l' =>
      let '(st1, r) := app e st req in
      (if is_create scope req && negb (status r =? 429)%Z then 1 else 0)
      + let_through scope st1 l'
  end.

(** Whether a response is a document with a member named [k] somewhere. *)
Definition discloses (k : string) (r : response) : bool :=
  match body r with
  | Some j => mentions (str k) j
  | None => false
  end.

(** The largest id the table has seen: the counter, or the largest id of a
    row when rows were put in by hand. *)
Definition high_water (d : database) : Z :=
  Z.max (sequence d) (largest_id (rows d)).

(** The row an insertion adds to the table. *)
Definition new_row (d : database) (timestamp name email message date : jsstring)
  : row :=
  {| r_id := high_water d + 1;
     r_name := Some (stored_text name);
     r_email := Some (stored_text email);
     r_message := stored_text message;
     r_date := stored_text date;
     r_created_at := timestamp |}.

Definition is_surrogate (c : unit16) : bool :=
  is_high_surrogate c || is_low_surrogate c.

(** What storing does to one character: nothing, or U+FFFD in the place of
    a surrogate. *)
Definition kept (c c' : unit16) : Prop :=
  c' = c ∨ (is_surrogate c = true ∧ c' = 65533%N).

(** Whether the character at position [i] of a text is a surrogate without
    its other half: a high surrogate that no low surrogate follows, or a low
    surrogate that no high surrogate precedes. *)
Definition unpaired (s : jsstring) (i : nat) : bool :=
  match s !! i with
  | Some c =>
      (is_high_surrogate c
       && negb (from_option is_low_surrogate false (s !! S i)))
      || (is_low_surrogate c
          && negb (from_option is_high_surrogate false
                     (match i with 0 => None | S j => s !! j end)))
  | None => false
  end.

(** What is kept of a character between its two neighbours. *)
Definition written (prev : option unit16) (c : unit16) (next : option unit16)
  : unit16 :=
  if (is_high_surrogate c && negb (from_option is_low_surrogate false next))
     || (is_low_surrogate c && negb (from_option is_high_surrogate false prev))
  then 65533%N else c.


(** The outcomes of the create handler, each with the condition under which
    the specification expects it: the checks in their order, then the
    insertion, which fails when the engine cannot carry it out or has no id
    left to give. *)
Inductive create_case (ok : bool) (timestamp date : jsstring)
    (d : database) (name email message : jsstring)
  : database * response → Prop :=
| case_min :
    length message < 5 →
    create_case ok timestamp date d name email message
      (d, res_json 400 (failure_on "VALIDATION_MIN_LENGTH" "message"))
| case_max :
    2000 < length message →
    create_case ok timestamp date d name email message
      (d, res_json 400 (failure_on "VALIDATION_MAX_LENGTH" "message"))
| case_email :
    5 ≤ length message ≤ 2000 → email ≠ [] → ¬ email_shape email →
    create_case ok timestamp date d name email message
      (d, res_json 400 (failure_on "VALIDATION_EMAIL" "email"))
| case_stored d' id :
    5 ≤ length message ≤ 2000 → email = [] ∨ email_shape email →
    ok = true →
    Sqlite.run ok timestamp d name email message date = (d', Some id) →
    create_case ok timestamp date d name email message
      (d', res_json 201
             (JObj [(str "ok", JBool true);
                    (str "item", item_view id name message date)]))
| case_db_error d' :
    5 ≤ length message ≤ 2000 → email = [] ∨ email_shape email →
    ok = false ∨ (2 ^ 63 - 1 < high_water d + 1)%Z →
    Sqlite.run ok timestamp d name email message date = (d', None) →
    create_case ok timestamp date d name email message
      (d', res_json 500 (failure "DB_ERROR")).

(** ** Sample requests *)

Definition empty_database : database :=
  {| rows := []; sequence := 0; journal := [] |}.

Definition start : state :=
  {| db := empty_database; dbReady := true; limiter := RateLimit.fresh |}.

Definition noon : environment :=
  {| clock := 1700000000000;
     date_now := str "2023-11-14T22:13:20.000Z";
     current_timestamp := str "2023-11-14 22:13:20";
     storage_ok := true |}.

Definition create_request (name email message : string) : request :=
  {| req_route := POST_comments;
     req_scope := str "203.0.113.7";
     req_query := VObj [];
     req_body :=
       Parsed (VObj [(str "name", VStr (str name));
                     (str "email", VStr (str email));
                     (str "message", VStr (str message))]) |}.

Definition list_request (query : list (string * string)) : request :=
  {| req_route := GET_comments;
     req_scope := str "203.0.113.7";
     req_query := VObj ((λ p, (str p.1, VStr (str p.2))) <$> query);
     req_body := Parsed (VObj []) |}.

(** A table of three comments, two of them written in the same second. *)
Definition three_rows : database :=
  {| rows :=
       [{| r_id := 1; r_name := Some (str "Ana"); r_email := Some [];
           r_message := str "primero"; r_date := str "2024-01-01T10:00:00.000Z";
           r_created_at := str "2024-01-01 10:00:00" |};
        {| r_id := 2; r_name := Some []; r_email := Some [];
           r_message := str "segundo"; r_date := str "2024-01-01T10:00:00.500Z";
           r_created_at := str "2024-01-01 10:00:00" |};
        {| r_id := 3; r_name := None; r_email := None;
           r_message := str "tercero"; r_date := str "2024-01-02T08:30:00.000Z";
           r_created_at := str "2024-01-02 08:30:00" |}];
     sequence := 3; journal := [] |}.

(** A name of 132 characters. *)
Definition long_name : string :=
  String.concat String.EmptyString (replicate 12 "Maria Jose "%string).

(** ** Notions for the properties beyond the specification *)

(** The five characters [sanitize] replaces. *)
Definition special (c : unit16) : bool :=
  ((c =? amp) || (c =? lt) || (c =? gt) || (c =? quot) || (c =? apos))%N.

(** How often a character occurs in a text. *)
Fixpoint occurrences (c : unit16) (s : jsstring) : nat :=
  match s with
  | [] => 0
  | x :: s' => (if (x =? c)%N then 1 else 0) + occurrences c s'
  end.

(** The id a create response announces. *)
Definition created_id (r : response) : option Z :=
  if (status r =? 201)%Z then
    match response_views r with
    | [v] => match view_member "id" v with
             | Some (JNum i) => Some i
             | _ => None
             end
    | _ => None
    end
  else None.

(** What the create handler lets into the table. *)
Definition stored_ok (r : row) : Prop :=
  ∃ n m, r_name r = Some n ∧ r_email r = Some m ∧
         length n ≤ 100 ∧ length m ≤ 150 ∧
         (m = [] ∨ email_shape m) ∧
         5 ≤ length (r_message r) ≤ 2000 ∧
         trim (r_message r) = r_message r.

(** A moment after the three comments of [three_rows]. *)
Definition spring : environment :=
  {| clock := 1709283600000;
     date_now := str "2024-03-01T09:00:00.000Z";
     current_timestamp := str "2024-03-01 09:00:00";
     storage_ok := true |}.

(** The views a call of the list handler sends back; none when it throws. *)
Definition page_views (answer : option (database * response)) : list json :=
  from_option (λ x, response_views x.2) [] answer.

(** A value that is neither an array nor an object. *)
Definition scalar (v : value) : bool :=
  match v with
  | VArr _ | VObj _ => false
  | _ => true
  end.

(** ** The origins of line 61

    In production [cors] is given two patterns and lets an origin in when
    one of them matches it; otherwise it is given no option and lets every
    origin in. *)

Definition is_line_terminator (c : unit16) : bool :=
  ((c =? 10) || (c =? 13) || (c =? 8232) || (c =? 8233))%N.

(** [.]: any character but a line terminator *)
Definition dot : regex := Class (λ c, negb (is_line_terminator c)).

(** A character of a pattern that stands for itself. *)
Definition chr (x : unit16) : regex := Class (N.eqb x).

(** A small letter of a pattern with the flag [i]: the letter or its
    capital. *)
Definition letter_i (x : unit16) : regex :=
  Class (λ c, (c =? x) || (c =? x - 32))%N.

Definition literal (s : jsstring) : regex :=
  foldr (λ x r, Cat (chr x) r) Eps s.

Definition literal_i (s : jsstring) : regex :=
  foldr (λ x r, Cat (letter_i x) r) Eps s.

(** [r?] *)
Definition optional (r : regex) : regex := Alt Eps r.

(** [/^https?:\/\/localhost(:\d+)?$/] *)
Definition localhost_pattern : regex :=
  Cat (literal (str "http"))
    (Cat (optional (chr 115%N))
      (Cat (literal (str "://localhost"))
        (optional (Cat (chr 58%N) (Plus (Class is_digit)))))).

(** [/.*apleno.*/i] *)
Definition apleno_pattern : regex :=
  Cat (Star dot) (Cat (literal_i (str "apleno")) (Star dot)).

(** [test] of a pattern without [^] and [$]: the match may start and end
    anywhere in the text. *)
Definition test_anywhere (r : regex) (s : jsstring) : bool :=
  matches (Cat (Star (Class (λ _, true)))
             (Cat r (Star (Class (λ _, true))))) s.

Definition origin_patterns : list (jsstring → bool) :=
  [matches localhost_pattern; test_anywhere apleno_pattern].

(** Lines 60-64 *)
Definition cors_allows (NODE_ENV origin : jsstring) : bool :=
  if bool_decide (NODE_ENV = str "production")
  then existsb (λ p, p origin) origin_patterns
  else true.

(** A capital of the Latin alphabet as the small letter, any other
    character as it is. *)
Definition lower (c : unit16) : unit16 :=
  if ((65 <=? c) && (c <=? 90))%N then (c + 32)%N else c.

(** * Properties *)

(** ** Matching by derivatives decides the language *)

Section regex_facts.
Implicit Types (r : regex) (s : jsstring) (c : unit16).

Lemma lang_void_inv s : ¬ lang Void s.
Proof. inversion 1. Qed.

Lemma lang_eps_inv s : lang Eps s → s = [].
Proof. by inversion 1. Qed.

Lemma lang_class_inv p s : lang (Class p) s → ∃ c, s = [c] ∧ p c = true.
Proof. inversion 1; subst; eauto. Qed.

Lemma lang_cat_inv r1 r2 s :
  lang (Cat r1 r2) s → ∃ s1 s2, s = s1 ++ s2 ∧ lang r1 s1 ∧ lang r2 s2.
Proof. inversion 1; subst; eauto. Qed.

Lemma lang_alt_inv r1 r2 s : lang (Alt r1 r2) s → lang r1 s ∨ lang r2 s.
Proof. inversion 1; subst; eauto. Qed.

Lemma nullable_lang r : nullable r = true ↔ lang r [].
Proof.
  induction r as [| |p|r1 IH1 r2 IH2|r1 IH1 r2 IH2|r IH]; simpl.
  - split; [done|]. by intros ?%lang_void_inv.
  - split; [constructor|done].
  - split; [done|]. by intros (c & ? & _)%lang_class_inv.
  - rewrite andb_true_iff, IH1, IH2. split.
    + intros [H1 H2]. by apply (lang_cat _ _ [] []).
    + intros (s1 & s2 & Heq & H1 & H2)%lang_cat_inv.
      symmetry in Heq. apply app_eq_nil in Heq as [-> ->]. done.
  - rewrite orb_true_iff, IH1, IH2. split.
    + intros [H|H]; [by apply lang_alt_l|by apply lang_alt_r].
    + apply lang_alt_inv.
  - split; [constructor|done].
Qed.

(** A non-empty word of [r*] starts with a non-empty word of [r]. *)
Lemma lang_star_cons r c s :
  lang (Star r) (c :: s) →
  ∃ s1 s2, s = s1 ++ s2 ∧ lang r (c :: s1) ∧ lang (Star r) s2.
Proof.
  intros H. remember (Star r) as r' eqn:Hr. remember (c :: s) as w eqn:Hw.
  revert c s Hw.
  induction H as [| | | | | |r0 s1 s2 H1 _ H2 IH2]; intros c' s' Hw;
    try discriminate.
  injection Hr as ->. destruct s1 as [|c1 s1]; simpl in Hw.
  - by apply IH2.
  - injection Hw as -> <-. eauto.
Qed.

Lemma deriv_lang c r s : lang (deriv c r) s ↔ lang r (c :: s).
Proof.
  revert s.
  induction r as [| |p|r1 IH1 r2 IH2|r1 IH1 r2 IH2|r IH]; intros s; simpl.
  - split; by intros ?%lang_void_inv.
  - split; [by intros ?%lang_void_inv|by intros ?%lang_eps_inv].
  - destruct (p c) eqn:Hp; split.
    + intros ->%lang_eps_inv. by constructor.
    + intros (c' & [= <- ->] & _)%lang_class_inv. constructor.
    + by intros ?%lang_void_inv.
    + intros (c' & [= <- ->] & ?)%lang_class_inv. congruence.
  - split.
    + intros [H|H]%lang_alt_inv.
      * apply lang_cat_inv in H as (s1 & s2 & -> & Ha & Hb).
        apply IH1 in Ha. by apply (lang_cat _ _ (c :: s1) s2).
      * destruct (nullable r1) eqn:Hn; [|by apply lang_void_inv in H].
        apply nullable_lang in Hn. apply IH2 in H.
        by apply (lang_cat _ _ [] (c :: s)).
    + intros (s1 & s2 & Heq & Ha & Hb)%lang_cat_inv.
      destruct s1 as [|c1 s1]; simpl in Heq.
      * subst s2. apply lang_alt_r.
        apply nullable_lang in Ha. rewrite Ha. by apply IH2.
      * injection Heq as <- ->. apply lang_alt_l.
        apply lang_cat; [by apply IH1|done].
  - split.
    + intros [H|H]%lang_alt_inv;
        [apply lang_alt_l; by apply IH1|apply lang_alt_r; by apply IH2].
    + intros [H|H]%lang_alt_inv;
        [apply lang_alt_l; by apply IH1|apply lang_alt_r; by apply IH2].
  - split.
    + intros (s1 & s2 & -> & Ha & Hb)%lang_cat_inv.
      apply IH in Ha. by apply (lang_star_app _ (c :: s1) s2).
    + intros (s1 & s2 & -> & Ha & Hb)%lang_star_cons.
      apply lang_cat; [by apply IH|done].
Qed.

Lemma matches_lang r s : matches r s = true ↔ lang r s.
Proof.
  revert r. induction s as [|c s IH]; intros r; simpl.
  - apply nullable_lang.
  - rewrite IH. apply deriv_lang.
Qed.

(** [p+]: one code unit or more, all of class [p]. *)
Lemma lang_star_class (p : unit16 → bool) s :
  lang (Star (Class p)) s ↔ Forall (λ c, p c = true) s.
Proof.
  split.
  - intros H. remember (Star (Class p)) as r' eqn:Hr.
    induction H as [| | | | | |r0 s1 s2 H1 _ H2 IH2]; try discriminate.
    + constructor.
    + injection Hr as ->.
      apply lang_class_inv in H1 as (c0 & -> & Hc). constructor; auto.
  - induction 1 as [|c s Hc _ IH]; [constructor|].
    apply (lang_star_app _ [c] s); [by constructor|done].
Qed.

Lemma lang_plus_class (p : unit16 → bool) s :
  lang (Plus (Class p)) s ↔ s ≠ [] ∧ Forall (λ c, p c = true) s.
Proof.
  unfold Plus. split.
  - intros (s1 & s2 & -> & Ha & Hb)%lang_cat_inv.
    apply lang_class_inv in Ha as (c & -> & Hc).
    apply lang_star_class in Hb. split; [done|]. by constructor.
  - intros [Hne Hall]. destruct Hall as [|c s Hc Hs]; [done|].
    apply (lang_cat _ _ [c] s); [by constructor|by apply lang_star_class].
Qed.

Lemma lang_class_eq (x : unit16) s : lang (Class (N.eqb x)) s ↔ s = [x].
Proof.
  split.
  - intros (c & -> & Hc)%lang_class_inv. by apply N.eqb_eq in Hc as ->.
  - intros ->. constructor. apply N.eqb_refl.
Qed.
End regex_facts.


(** ** The models at work *)

Example sanitize_tag :
  sanitize (str "<a href='x'>T&J</a>")
  = str "&lt;a href=&#39;x&#39;&gt;T&amp;J&lt;/a&gt;".
Proof. reflexivity. Qed.

Example parse_500px : parseInt10 (str "  500px") = Fin 500.
Proof. reflexivity. Qed.

Example parse_negative : parseInt10 (str "-7") = Fin (-7).
Proof. reflexivity. Qed.

Example parse_abc : parseInt10 (str "abc") = NaN.
Proof. reflexivity. Qed.

Example parse_rounded :
  parseInt10 (str "9007199254740993") = Fin 9007199254740992.
Proof. vm_compute. reflexivity. Qed.

Example join_nested :
  ToString (VArr [VStr (str "1"); VNull; VArr [VStr (str "2"); VStr (str "3")]])
  = Some (str "1,,2,3").
Proof. reflexivity. Qed.

Example email_plain : email_test (str "ana@example.com") = true.
Proof. reflexivity. Qed.

Example email_no_at : email_test (str "not-an-email") = false.
Proof. reflexivity. Qed.

Example email_with_space : email_test (str "a b@example.com") = false.
Proof. reflexivity. Qed.

Example email_second_at : email_test (str "a@@b..c") = true.
Proof. reflexivity. Qed.


(** ** [trim] *)

Lemma trim_start_spec s :
  ∃ pre, s = pre ++ trim_start s ∧
         Forall (λ c, is_space c = true) pre ∧
         ∀ c, head (trim_start s) = Some c → is_space c = false.
Proof.
  induction s as [|c s (pre & Heq & Hpre & Hhead)]; simpl.
  { exists []. by repeat split. }
  destruct (is_space c) eqn:Hc.
  - exists (c :: pre). split; [by rewrite Heq at 1|]. split; [by constructor|done].
  - exists []. repeat split; [constructor|]. by intros ? [= <-].
Qed.

(** What [trim] returns is the string without a run of white space at its
    start and one at its end, and has none at either end. *)
Lemma trim_spec s :
  ∃ pre post,
    s = pre ++ trim s ++ post ∧
    Forall (λ c, is_space c = true) pre ∧
    Forall (λ c, is_space c = true) post ∧
    (∀ c, head (trim s) = Some c → is_space c = false) ∧
    (∀ c, last (trim s) = Some c → is_space c = false).
Proof.
  destruct (trim_start_spec s) as (pre & Hs & Hpre & Hhead).
  unfold trim, trim_end.
  destruct (trim_start_spec (reverse (trim_start s)))
    as (q & Hr & Hq & Hlast).
  set (u := trim_start (reverse (trim_start s))) in *.
  assert (trim_start s = reverse u ++ reverse q) as Ht.
  { rewrite <- reverse_app, <- Hr. by rewrite reverse_involutive. }
  exists pre, (reverse q). split; [by rewrite <- Ht|].
  split; [done|]. split; [by apply Forall_reverse|]. split.
  - intros c Hc. apply Hhead. rewrite Ht.
    destruct (reverse u); [done|]. done.
  - intros c Hc. apply Hlast. by rewrite <- last_reverse.
Qed.

Example trim_tabs : trim (str "  hola mundo ") = str "hola mundo".
Proof. reflexivity. Qed.


(** ** What the table keeps of a text *)

Lemma stored_text_cons c s :
  stored_text (c :: s) =
    if is_high_surrogate c then
      match s with
      | c' :: s'' =>
          if is_low_surrogate c' then c :: c' :: stored_text s''
          else 65533%N :: stored_text s
      | [] => [65533%N]
      end
    else if is_low_surrogate c then 65533%N :: stored_text s
    else c :: stored_text s.
Proof. reflexivity. Qed.

Lemma kept_refl c : kept c c.
Proof. by left. Qed.

Lemma kept_high c : is_high_surrogate c = true → kept c 65533%N.
Proof. intros H. right. unfold is_surrogate. by rewrite H. Qed.

Lemma kept_low c : is_low_surrogate c = true → kept c 65533%N.
Proof. intros H. right. unfold is_surrogate. by rewrite H, orb_true_r. Qed.

Lemma stored_text_kept_cons s :
  Forall2 kept s (stored_text s) ∧
  ∀ c, Forall2 kept (c :: s) (stored_text (c :: s)).
Proof.
  induction s as [|a s [IH1 IH2]].
  - split; [constructor|]. intros c. rewrite stored_text_cons.
    destruct (is_high_surrogate c) eqn:Hh;
      [|destruct (is_low_surrogate c) eqn:Hl];
      (constructor; [|constructor]);
      auto using kept_refl, kept_high, kept_low.
  - split; [apply IH2|]. intros c. rewrite stored_text_cons.
    destruct (is_high_surrogate c) eqn:Hh.
    + destruct (is_low_surrogate a) eqn:Ha.
      * constructor; [apply kept_refl|].
        constructor; [apply kept_refl|apply IH1].
      * constructor; [by apply kept_high|apply IH2].
    + destruct (is_low_surrogate c) eqn:Hl.
      * constructor; [by apply kept_low|apply IH2].
      * constructor; [apply kept_refl|apply IH2].
Qed.

(** Storing changes a text at its unpaired surrogates only. *)
Lemma stored_text_kept s : Forall2 kept s (stored_text s).
Proof. apply stored_text_kept_cons. Qed.

Lemma high_not_low c : is_high_surrogate c = true → is_low_surrogate c = false.
Proof.
  unfold is_high_surrogate, is_low_surrogate.
  rewrite andb_true_iff, andb_false_iff, !N.leb_le, !N.leb_gt. lia.
Qed.

Lemma stored_text_lookup_from s :
  (∀ p i,
     ¬ (from_option is_high_surrogate false p = true ∧
        from_option is_low_surrogate false (head s) = true) →
     stored_text s !! i
     = (λ c, written (match i with 0 => p | S j => s !! j end) c (s !! S i))
         <$> s !! i) ∧
  (∀ a p i,
     ¬ (from_option is_high_surrogate false p = true ∧
        from_option is_low_surrogate false (head (a :: s)) = true) →
     stored_text (a :: s) !! i
     = (λ c, written (match i with 0 => p | S j => (a :: s) !! j end) c
               ((a :: s) !! S i))
         <$> (a :: s) !! i).
Proof.
  induction s as [|b s [IH1 IH2]].
  - split; [done|]. intros a p i Hp. rewrite stored_text_cons.
    cbn [head from_option] in Hp.
    destruct i as [|i];
      [|by destruct (is_high_surrogate a), (is_low_surrogate a), i].
    cbn. unfold written. cbn.
    destruct (is_high_surrogate a) eqn:Ha; [done|].
    destruct (is_low_surrogate a) eqn:Hl; [|done]. cbn.
    destruct (from_option is_high_surrogate false p) eqn:Hq; [|done].
    exfalso. by apply Hp.
  - split; [apply IH2|]. intros a p i Hp. rewrite stored_text_cons.
    cbn [head from_option] in Hp.
    destruct (is_high_surrogate a) eqn:Ha.
    + pose proof (high_not_low _ Ha) as Hal.
      destruct (is_low_surrogate b) eqn:Hb.
      * destruct i as [|[|i]].
        -- cbn. unfold written. cbn. by rewrite Ha, Hal, Hb.
        -- cbn. unfold written. cbn. rewrite Hb, Ha. cbn.
           destruct (is_high_surrogate b) eqn:E; [|done].
           apply high_not_low in E. congruence.
        -- change ((a :: b :: stored_text s) !! S (S i))
             with (stored_text s !! i).
           rewrite (IH1 (Some b) i).
           ++ by destruct i.
           ++ cbn. intros [Hhb _]. apply high_not_low in Hhb. congruence.
      * destruct i as [|i].
        -- cbn. unfold written. cbn. by rewrite Ha, Hb.
        -- change ((65533%N :: stored_text (b :: s)) !! S i)
             with (stored_text (b :: s) !! i).
           rewrite (IH2 b (Some a) i).
           ++ by destruct i.
           ++ cbn. rewrite Hb. by intros [_ ?].
    + destruct i as [|i].
      * unfold written. cbn. rewrite Ha. cbn.
        destruct (is_low_surrogate a) eqn:Hl; [|done]. cbn.
        destruct (from_option is_high_surrogate false p) eqn:Hq; [|done].
        exfalso. by apply Hp.
      * destruct (is_low_surrogate a) eqn:Hl;
          change ((?x :: stored_text (b :: s)) !! S i)
            with (stored_text (b :: s) !! i);
          (rewrite (IH2 b (Some a) i);
             [by destruct i|cbn; rewrite Ha; by intros [? _]]).
Qed.

(** Storing a text replaces its unpaired surrogates by U+FFFD and leaves
    every other character where and as it was. *)
Lemma stored_text_lookup s i :
  stored_text s !! i
  = (λ c : unit16, if unpaired s i then 65533%N else c) <$> s !! i.
Proof.
  etrans; [apply (proj1 (stored_text_lookup_from s) None i); by intros [? _]|].
  unfold unpaired, written. unfold jsstring, unit16 in *.
  destruct (s !! i) as [c|] eqn:E; [|done]. cbn.
  by destruct i.
Qed.

Lemma stored_text_length s : length (stored_text s) = length s.
Proof. symmetry. eapply Forall2_length, stored_text_kept. Qed.

Lemma stored_text_plain s :
  Forall (λ c, is_surrogate c = false) s → stored_text s = s.
Proof.
  intros Hs. pose proof (stored_text_kept s) as Hk.
  induction Hk as [|c c' s s' Hc Hk IH]; [done|].
  apply Forall_cons in Hs as [Hn Hs]. rewrite IH by done.
  destruct Hc as [->|[Hc _]]; [done|congruence].
Qed.


Lemma email_test_shape s : email_test s = true ↔ email_shape s.
Proof.
  unfold email_test, email_shape, email_pattern. rewrite matches_lang. split.
  - intros (a & s1 & -> & Ha & H1)%lang_cat_inv.
    apply lang_cat_inv in H1 as (x & s2 & -> & Hx & H2).
    apply lang_cat_inv in H2 as (b & s3 & -> & Hb & H3).
    apply lang_cat_inv in H3 as (y & c & -> & Hy & Hc).
    apply lang_class_eq in Hx as ->. apply lang_class_eq in Hy as ->.
    apply lang_plus_class in Ha as [? Ha], Hb as [? Hb], Hc as [? Hc].
    exists a, b, c. repeat split; try done.
    rewrite !Forall_app. repeat split;
      (eapply Forall_impl; [eassumption|]);
      intros ?; unfold non_space; by rewrite negb_true_iff.
  - intros (a & b & c & -> & Ha & Hb & Hc & Hall).
    rewrite !Forall_app in Hall. destruct Hall as (Fa & Fb & Fc).
    assert (∀ l, l ≠ [] → Forall (λ x, is_space x = false) l →
                 lang (Plus (Class non_space)) l) as Hplus.
    { intros l Hl Fl. apply lang_plus_class. split; [done|].
      eapply Forall_impl; [eassumption|].
      intros ?; unfold non_space; by rewrite negb_true_iff. }
    apply lang_cat; [by apply Hplus|].
    apply lang_cat; [by apply lang_class_eq|].
    apply lang_cat; [by apply Hplus|].
    apply lang_cat; [by apply lang_class_eq|by apply Hplus].
Qed.

(** ** [sanitize] *)

Lemma replace_all_app c rep s1 s2 :
  replace_all c rep (s1 ++ s2) = replace_all c rep s1 ++ replace_all c rep s2.
Proof. unfold replace_all. apply bind_app. Qed.

Lemma sanitize_app s1 s2 : sanitize (s1 ++ s2) = sanitize s1 ++ sanitize s2.
Proof. unfold sanitize. by rewrite !replace_all_app. Qed.

Lemma sanitize_one c : sanitize [c] = escape c.
Proof.
  unfold escape.
  destruct (N.eqb_spec c amp) as [->|Ha]; [reflexivity|].
  destruct (N.eqb_spec c lt) as [->|Hl]; [reflexivity|].
  destruct (N.eqb_spec c gt) as [->|Hg]; [reflexivity|].
  destruct (N.eqb_spec c quot) as [->|Hq]; [reflexivity|].
  destruct (N.eqb_spec c apos) as [->|Hp]; [reflexivity|].
  apply N.eqb_neq in Ha, Hl, Hg, Hq, Hp.
  unfold sanitize, replace_all. simpl.
  rewrite Ha. simpl. rewrite Hl. simpl. rewrite Hg. simpl.
  rewrite Hq. simpl. by rewrite Hp.
Qed.

(** The five passes in the order of the source amount to one pass that
    replaces each character by its entry in the table. *)
Lemma sanitize_escape s : sanitize s = s ≫= escape.
Proof.
  induction s as [|c s IH]; [reflexivity|].
  change (c :: s) with ([c] ++ s).
  rewrite sanitize_app, sanitize_one, IH. reflexivity.
Qed.

Lemma escape_cases c :
  escape c ∈ entities ∨
  (escape c = [c] ∧ c ≠ amp ∧ c ≠ lt ∧ c ≠ gt ∧ c ≠ quot ∧ c ≠ apos).
Proof.
  unfold escape, entities.
  destruct (N.eqb_spec c amp); [left; set_solver|].
  destruct (N.eqb_spec c lt); [left; set_solver|].
  destruct (N.eqb_spec c gt); [left; set_solver|].
  destruct (N.eqb_spec c quot); [left; set_solver|].
  destruct (N.eqb_spec c apos); [left; set_solver|].
  by right.
Qed.

Lemma entity_inv e :
  e ∈ entities →
  ∃ t, e = amp :: t ∧ (amp ∉ t) ∧ (lt ∉ e) ∧ (gt ∉ e) ∧ (quot ∉ e) ∧
       (apos ∉ e).
Proof.
  unfold entities. rewrite !elem_of_cons, elem_of_nil.
  intros [->|[->|[->|[->|[->|[]]]]]]; eexists; (split; [reflexivity|]);
    repeat split; compute_done.
Qed.

Lemma sanitize_no_markup s x :
  x ∈ sanitize s → x ≠ lt ∧ x ≠ gt ∧ x ≠ quot ∧ x ≠ apos.
Proof.
  rewrite sanitize_escape, list_elem_of_bind. intros (c & Hx & _).
  destruct (escape_cases c) as [He|(Hc & ? & ? & ? & ? & ?)].
  - apply entity_inv in He as (t & _ & _ & ? & ? & ? & ?).
    repeat split; by intros ->.
  - rewrite Hc in Hx. apply list_elem_of_singleton in Hx as ->. done.
Qed.

Lemma sanitize_amp s pre post :
  sanitize s = pre ++ amp :: post →
  ∃ e, e ∈ entities ∧ e `prefix_of` amp :: post.
Proof.
  rewrite sanitize_escape. revert pre.
  induction s as [|c s IH]; intros pre; csimpl.
  { intros H. by destruct pre. }
  intros H. apply app_eq_app in H as [l [[He Hr]|[Hp Hr]]].
  - destruct l as [|x l]; csimpl in Hr.
    { apply (IH []). symmetry. exact Hr. }
    injection Hr as <- ->.
    destruct (escape_cases c) as [Hin|(Hc & Hamp & _)].
    + destruct (entity_inv _ Hin) as (t & Ht & Hnt & _).
      exists (escape c). split; [done|].
      rewrite Ht in He. destruct pre as [|p pre]; simpl in He.
      * injection He as <-. rewrite Ht. by apply prefix_cons, prefix_app_r.
      * injection He as _ He. exfalso. apply Hnt. rewrite He. set_solver.
    + rewrite Hc in He. destruct pre as [|p [|q pre]]; simplify_eq/=.
  - subst pre. by apply (IH l).
Qed.


(** ** The order of the listing *)

Lemma text_compare_eq a b : text_compare a b = Eq ↔ a = b.
Proof.
  revert b. induction a as [|x a IH]; intros [|y b]; simpl; try done.
  destruct (N.compare_spec x y) as [->|?|?].
  - rewrite IH. naive_solver.
  - split; [done|]. intros [= -> _]. lia.
  - split; [done|]. intros [= -> _]. lia.
Qed.

Lemma text_compare_antisym a b :
  text_compare b a = CompOpp (text_compare a b).
Proof.
  revert b. induction a as [|x a IH]; intros [|y b]; simpl; try done.
  rewrite (N.compare_antisym x y).
  destruct (x ?= y)%N; simpl; auto.
Qed.

Lemma text_compare_gt_trans a b c :
  text_compare a b = Gt → text_compare b c = Gt → text_compare a c = Gt.
Proof.
  revert b c. induction a as [|x a IH]; intros [|y b] [|z c]; simpl;
    try done.
  destruct (N.compare_spec x y) as [->|?|?]; try done.
  - destruct (N.compare_spec y z) as [->|?|?]; try done. apply IH.
  - intros _. destruct (N.compare_spec y z) as [->|?|?]; try done.
    + intros _. destruct (N.compare_spec x z); [lia|lia|done].
    + intros _. destruct (N.compare_spec x z); [lia|lia|done].
Qed.

(** [a] comes no later than [b]: its timestamp is the greater text, or the
    timestamps are the same and its id is not the smaller. *)
Lemma newest_first_spec a b :
  newest_first a b ↔
    text_compare (r_created_at b) (r_created_at a) = Lt ∨
    (r_created_at a = r_created_at b ∧ (r_id b ≤ r_id a)%Z).
Proof.
  unfold newest_first, precedes.
  rewrite (text_compare_antisym (r_created_at a) (r_created_at b)).
  destruct (text_compare (r_created_at a) (r_created_at b)) eqn:Hc; simpl.
  - apply text_compare_eq in Hc. rewrite Z.leb_le. naive_solver.
  - split; [done|]. intros [?|[Heq _]]; [done|].
    apply text_compare_eq in Heq. congruence.
  - naive_solver.
Qed.

#[local] Instance newest_first_total : Total newest_first.
Proof.
  intros a b. unfold newest_first, precedes.
  rewrite (text_compare_antisym (r_created_at a) (r_created_at b)).
  destruct (text_compare (r_created_at a) (r_created_at b)); simpl; auto.
  rewrite !Z.leb_le. lia.
Qed.

#[local] Instance newest_first_trans : Transitive newest_first.
Proof.
  intros a b c. unfold newest_first, precedes.
  destruct (text_compare (r_created_at a) (r_created_at b)) eqn:Hab;
    try done.
  - apply text_compare_eq in Hab. rewrite Hab.
    destruct (text_compare (r_created_at b) (r_created_at c)); try done.
    rewrite !Z.leb_le. lia.
  - intros _.
    destruct (text_compare (r_created_at b) (r_created_at c)) eqn:Hbc;
      try done.
    + apply text_compare_eq in Hbc. rewrite <- Hbc, Hab. done.
    + by rewrite (text_compare_gt_trans _ _ _ Hab Hbc).
Qed.

Lemma order_by_sorted l :
  StronglySorted newest_first (order_by_created_at_desc_id_desc l).
Proof. apply StronglySorted_merge_sort; apply _. Qed.

Lemma order_by_permutation l : order_by_created_at_desc_id_desc l ≡ₚ l.
Proof. apply merge_sort_Permutation. Qed.

Lemma StronglySorted_take_drop {A} (R : relation A) n m (l : list A) :
  StronglySorted R l → StronglySorted R (take n (drop m l)).
Proof.
  intros H.
  rewrite <- (take_drop m l) in H. apply StronglySorted_app_1_r in H.
  rewrite <- (take_drop n (drop m l)) in H.
  by apply StronglySorted_app_1_l in H.
Qed.

Lemma StronglySorted_lookup_lt {A} (R : relation A) (l : list A) i j x y :
  StronglySorted R l → i < j → l !! i = Some x → l !! j = Some y → R x y.
Proof.
  intros H. revert i j. induction H as [|z l Hl IH Hz]; intros i j Hij Hi Hj.
  { by rewrite lookup_nil in Hi. }
  destruct j as [|j]; [lia|]. simpl in Hj. destruct i as [|i]; simpl in Hi.
  - injection Hi as ->. rewrite Forall_forall in Hz. apply Hz.
    by eapply list_elem_of_lookup_2.
  - apply (IH i j); [lia|done..].
Qed.


(** ** The limit and the offset of a listing *)

Lemma limit_clamp n :
  Math_max (Fin 1) (Math_min (num_or n (Fin 20)) (Fin 100))
  = Fin (effective_limit n).
Proof.
  destruct n as [|z| |]; try reflexivity.
  destruct (decide (z = 0%Z)) as [->|Hz]; [reflexivity|].
  assert (num_or (Fin z) (Fin 20) = Fin z) as -> by by destruct z.
  assert (effective_limit (Fin z) = Z.max 1 (Z.min z 100)) as ->
    by by destruct z.
  unfold Math_min, Math_max, num_leb.
  destruct (Z.leb_spec z 100); destruct (Z.leb_spec 1 z);
    try destruct (Z.leb_spec 1 100); f_equal; lia.
Qed.

Lemma offset_clamp n :
  Math_max (Fin 0) (num_or n (Fin 0)) = effective_offset n.
Proof.
  destruct n as [|z| |]; try reflexivity.
  destruct (decide (z = 0%Z)) as [->|Hz]; [reflexivity|].
  assert (num_or (Fin z) (Fin 0) = Fin z) as -> by by destruct z.
  unfold Math_max, num_leb, effective_offset.
  destruct (Z.leb_spec 0 z); f_equal; lia.
Qed.

Lemma effective_limit_range n : (1 ≤ effective_limit n ≤ 100)%Z.
Proof. destruct n as [|[| |]| |]; simpl; lia. Qed.



Lemma list_limit_inv q n :
  list_limit q = Some n → ∃ z, n = Fin z ∧ (1 ≤ z ≤ 100)%Z.
Proof.
  unfold list_limit.
  destruct (get q (str "limit")) as [raw|]; [|done]. cbn [mbind option_bind].
  destruct (ToString _) as [text|]; [|done]. cbn [mbind option_bind].
  rewrite limit_clamp. intros [= <-]. eexists. split; [done|].
  apply effective_limit_range.
Qed.

Lemma list_offset_inv q n :
  list_offset q = Some n → n = PosInf ∨ ∃ z, n = Fin z ∧ (0 ≤ z)%Z.
Proof.
  unfold list_offset.
  destruct (get q (str "offset")) as [raw|]; [|done]. cbn [mbind option_bind].
  destruct (ToString _) as [text|]; [|done]. cbn [mbind option_bind].
  rewrite offset_clamp. intros [= <-].
  destruct (parseInt10 text) as [|z| |]; simpl; [right|right|by left|right];
    (eexists; split; [done|lia]).
Qed.






(** ** The create handler, case by case *)

Lemma min_length_check (message : jsstring) :
  bool_decide (message = []) || (length message <? 5) = true
  ↔ length message < 5.
Proof.
  rewrite orb_true_iff, bool_decide_eq_true, Nat.ltb_lt.
  split; [|auto]. intros [->|?]; simpl; lia.
Qed.

Lemma email_check (email : jsstring) :
  negb (bool_decide (email = [])) && negb (email_test email) = true
  ↔ email ≠ [] ∧ ¬ email_shape email.
Proof.
  rewrite andb_true_iff, !negb_true_iff, bool_decide_eq_false.
  rewrite <- email_test_shape, not_true_iff_false. done.
Qed.

(** The insertion: a row with the next id when the engine is at work and
    an id is left, no change to the table otherwise; the statement is run
    either way. *)
Lemma run_cases ok timestamp d name email message date :
  (ok = true ∧ (high_water d + 1 ≤ 2 ^ 63 - 1)%Z ∧
   Sqlite.run ok timestamp d name email message date =
     ({| rows := rows d ++ [new_row d timestamp name email message date];
         sequence := high_water d + 1;
         journal := journal d ++ [InsertComment name email message date] |},
      Some (js_number (high_water d + 1)))) ∨
  ((ok = false ∨ (2 ^ 63 - 1 < high_water d + 1)%Z) ∧
   Sqlite.run ok timestamp d name email message date =
     ({| rows := rows d; sequence := sequence d;
         journal := journal d ++ [InsertComment name email message date] |},
      None)).
Proof.
  unfold Sqlite.run, new_row, high_water. destruct ok; cbn [andb].
  - destruct (Z.leb_spec (Z.max (sequence d) (largest_id (rows d)) + 1)
                (2 ^ 63 - 1)); [left|right]; auto.
  - right. auto.
Qed.

Lemma run_stored ok timestamp d name email message date d' id :
  Sqlite.run ok timestamp d name email message date = (d', Some id) →
  ok = true ∧ (high_water d + 1 ≤ 2 ^ 63 - 1)%Z ∧
  id = js_number (high_water d + 1) ∧
  d' = {| rows := rows d ++ [new_row d timestamp name email message date];
          sequence := high_water d + 1;
          journal := journal d ++ [InsertComment name email message date] |}.
Proof.
  destruct (run_cases ok timestamp d name email message date)
    as [(? & ? & ->)|(? & ->)]; intros E; [|discriminate E].
  injection E as <- <-. done.
Qed.

Lemma run_failed ok timestamp d name email message date d' :
  Sqlite.run ok timestamp d name email message date = (d', None) →
  (ok = false ∨ (2 ^ 63 - 1 < high_water d + 1)%Z) ∧
  d' = {| rows := rows d; sequence := sequence d;
          journal := journal d ++ [InsertComment name email message date] |}.
Proof.
  destruct (run_cases ok timestamp d name email message date)
    as [(? & ? & ->)|(? & ->)]; intros E; [discriminate E|].
  injection E as <-. done.
Qed.

Lemma create_comment_case ok timestamp date d name email message :
  create_case ok timestamp date d name email message
    (create_comment ok timestamp date d name email message).
Proof.
  unfold create_comment.
  destruct (bool_decide (message = []) || (length message <? 5)) eqn:Hmin.
  { apply case_min. by apply min_length_check. }
  assert (5 ≤ length message) as H5.
  { apply not_true_iff_false in Hmin. rewrite min_length_check in Hmin. lia. }
  destruct (2000 <? length message) eqn:Hmax.
  { apply case_max. by apply Nat.ltb_lt. }
  apply Nat.ltb_ge in Hmax.
  destruct (negb (bool_decide (email = [])) && negb (email_test email))
    eqn:Hemail.
  { apply email_check in Hemail as [? ?]. by apply case_email. }
  assert (email = [] ∨ email_shape email) as He.
  { apply not_true_iff_false in Hemail. rewrite email_check in Hemail.
    destruct (decide (email = [])) as [?|?]; [by left|right].
    rewrite <- email_test_shape in *.
    destruct (email_test email); [done|]. exfalso. apply Hemail. done. }
  destruct (run_cases ok timestamp d name email message date)
    as [(Hok & _ & Hrun)|(Hno & Hrun)]; rewrite Hrun.
  - by eapply case_stored.
  - by eapply case_db_error.
Qed.


Lemma post_comments_read ok timestamp date d b :
  post_comments ok timestamp date d b =
    match field_text b "name", field_text b "email", field_text b "message"
    with
    | Some n, Some e, Some m =>
        Some (create_comment ok timestamp date d
                (slice0 100 (trim n)) (slice0 150 (trim e)) (trim m))
    | _, _, _ => None
    end.
Proof.
  unfold post_comments.
  destruct (field_text b "name"); [|done].
  destruct (field_text b "email"); [|done].
  by destruct (field_text b "message").
Qed.

Lemma create_comment_status ok timestamp date d name email message :
  status (create_comment ok timestamp date d name email message).2
    ∈ [400; 500; 201]%Z.
Proof.
  destruct (create_comment_case ok timestamp date d name email message);
    simpl; rewrite !elem_of_cons; auto.
Qed.

Lemma post_comments_status ok ts date d b d' res :
  post_comments ok ts date d b = Some (d', res) →
  status res ∈ [400; 500; 201]%Z.
Proof.
  rewrite post_comments_read.
  destruct (field_text b "name") as [n|]; [|done].
  destruct (field_text b "email") as [m|]; [|done].
  destruct (field_text b "message") as [t|]; [|done].
  intros E.
  pose proof (create_comment_status ok ts date d
    (slice0 100 (trim n)) (slice0 150 (trim m)) (trim t)) as Hs.
  assert (create_comment ok ts date d (slice0 100 (trim n))
            (slice0 150 (trim m)) (trim t) = (d', res)) as E'
    by congruence.
  by rewrite E' in Hs.
Qed.


(** ** The list handler *)

Lemma get_comments_inv ok d q d' res :
  get_comments ok d q = Some (d', res) →
  ∃ ln on,
    list_limit q = Some ln ∧ list_offset q = Some on ∧
    d' = {| rows := rows d; sequence := sequence d;
            journal := journal d ++ [SelectComments ln on] |} ∧
    (res = res_json 500 (failure "DB_ERROR") ∨
     ∃ l o, ln = Fin l ∧ on = Fin o ∧ (1 ≤ l ≤ 100)%Z ∧ (0 ≤ o)%Z ∧
            ok = true ∧
            res = res_json 200
                    (JObj [(str "ok", JBool true);
                           (str "items",
                            JArr (list_view <$>
                                    take (Z.to_nat l)
                                      (drop (Z.to_nat o)
                                         (order_by_created_at_desc_id_desc
                                            (rows d)))));
                           (str "limit", JNum l);
                           (str "offset", JNum o)])).
Proof.
  unfold get_comments.
  destruct (list_limit q) as [ln|] eqn:Hl; [|done].
  destruct (list_offset q) as [on|] eqn:Ho; [|done].
  cbn [mbind option_bind]. unfold Sqlite.all.
  apply list_limit_inv in Hl as (l & -> & Hl).
  intros E. exists (Fin l), on. split; [done|]. split; [done|].
  destruct ok.
  - apply list_offset_inv in Ho as [->|(o & -> & Ho)].
    + assert (sql_integer PosInf = None) as Hinf by done.
      destruct (sql_integer (Fin l)); cbn [mbind option_bind] in E;
        rewrite ?Hinf in E; cbn [mbind option_bind] in E;
        injection E as <- <-; auto.
    + assert (sql_integer (Fin l) = Some l) as Hsl.
      { unfold sql_integer.
        rewrite (proj2 (Z.leb_le _ _)), (proj2 (Z.ltb_lt _ _)); [done|lia..]. }
      rewrite Hsl in E. cbn [mbind option_bind] in E.
      destruct (sql_integer (Fin o)) as [o'|] eqn:Hso;
        cbn [mbind option_bind] in E; injection E as <- <-;
        (split; [done|]); [|by left].
      right. exists l, o. repeat split; try done; try lia.
      assert (o' = o) as ->.
      { unfold sql_integer in Hso. by case_match; simplify_eq. }
      unfold sql_limit, sql_offset.
      by rewrite (proj2 (Z.ltb_ge _ _)) by lia.
  - injection E as <- <-. auto.
Qed.

Lemma get_comments_status ok d q d' res :
  get_comments ok d q = Some (d', res) → status res ∈ [200; 500]%Z.
Proof.
  unfold get_comments.
  destruct (list_limit q) as [l|]; [|done].
  destruct (list_offset q) as [o|]; [|done]. cbn [mbind option_bind].
  destruct (Sqlite.all ok d l o) as [d1 [rs|]]; intros E;
    assert (status res = 200%Z ∨ status res = 500%Z) as [-> | ->]
      by (injection E as _ <-; auto);
    rewrite !elem_of_cons; auto.
Qed.

Lemma mentions_list_view k r :
  k ∉ [str "id"; str "name"; str "message"; str "date"; str "created_at"] →
  mentions k (list_view r) = false.
Proof.
  rewrite !not_elem_of_cons. intros (? & ? & ? & ? & ? & _).
  unfold list_view. cbn [mentions existsb fst snd].
  by rewrite !bool_decide_eq_false_2 by done.
Qed.

Lemma mentions_list_views k rows :
  k ∉ [str "id"; str "name"; str "message"; str "date"; str "created_at"] →
  mentions k (JArr (list_view <$> rows)) = false.
Proof.
  intros Hk. change (existsb (mentions k) (list_view <$> rows) = false).
  induction rows as [|r rows IH]; [done|].
  rewrite fmap_cons. cbn [existsb]. by rewrite IH, mentions_list_view.
Qed.


(** ** What a response shows of a comment *)

Lemma get_comments_views ok d q d' res v :
  get_comments ok d q = Some (d', res) → v ∈ response_views res →
  ∃ row, row ∈ rows d' ∧ status res = 200%Z ∧ v = list_view row.
Proof.
  intros (ln & on & _ & _ & -> & [->|(l & o & _ & _ & _ & _ & _ & ->)])
    %get_comments_inv.
  { by intros ?%elem_of_nil. }
  change (response_views _) with
    (list_view <$> take (Z.to_nat l) (drop (Z.to_nat o)
       (order_by_created_at_desc_id_desc (rows d)))).
  intros (row & -> & Hin)%list_elem_of_fmap. exists row. split; [|done].
  cbn [rows]. rewrite <- (order_by_permutation (rows d)).
  eapply subseteq_drop, subseteq_take, Hin.
Qed.

Lemma response_views_item id name message date :
  response_views
    (res_json 201
       (JObj [(str "ok", JBool true);
              (str "item", item_view id name message date)]))
  = [item_view id name message date].
Proof. reflexivity. Qed.

(** A request answered 201 is a create request whose three fields were
    read, whose message and email passed the checks, and whose insertion
    went through: the table has the new row, and the response shows the
    request's own name and message, not what the table made of them. *)
Lemma app_created e st req :
  status (app e st req).2 = 201%Z →
  ∃ b name email message,
    req_route req = POST_comments ∧ req_body req = Parsed b ∧
    field_text b "name" = Some name ∧
    field_text b "email" = Some email ∧
    field_text b "message" = Some message ∧
    5 ≤ length (trim message) ≤ 2000 ∧
    (slice0 150 (trim email) = [] ∨ email_shape (slice0 150 (trim email))) ∧
    (high_water (db st) + 1 ≤ 2 ^ 63 - 1)%Z ∧
    db (app e st req).1 =
      {| rows := rows (db st) ++
                 [new_row (db st) (current_timestamp e)
                    (slice0 100 (trim name)) (slice0 150 (trim email))
                    (trim message) (date_now e)];
         sequence := high_water (db st) + 1;
         journal := journal (db st) ++
                    [InsertComment (slice0 100 (trim name))
                       (slice0 150 (trim email)) (trim message)
                       (date_now e)] |} ∧
    (app e st req).2 =
      res_json 201
        (JObj [(str "ok", JBool true);
               (str "item",
                item_view (js_number (high_water (db st) + 1))
                  (slice0 100 (trim name)) (trim message) (date_now e))]).
Proof.
  unfold app. destruct (req_body req) as [err|b].
  { unfold error_middleware. by case_match. }
  destruct (req_route req) eqn:Hroute; try done.
  - unfold settle.
    destruct (get_comments _ _ _) as [[d' res]|] eqn:Hg; [|done].
    cbn [snd]. apply get_comments_status in Hg. intros Hs.
    rewrite Hs, !elem_of_cons, elem_of_nil in Hg. naive_solver.
  - destruct (RateLimit.hit _ _ _ _) as [c pass]. destruct pass; [|done].
    rewrite post_comments_read.
    destruct (field_text b "name") as [n|] eqn:Hn; [|done].
    destruct (field_text b "email") as [m|] eqn:Hm; [|done].
    destruct (field_text b "message") as [t|] eqn:Ht; [|done].
    unfold settle.
    destruct (create_comment_case (storage_ok e) (current_timestamp e)
      (date_now e) (db st) (slice0 100 (trim n)) (slice0 150 (trim m))
      (trim t)) as [?|?|? ? Hno|d' id Hlen Hmail ? Hrun|d' ? ? ? Hrun];
      cbn [fst snd db]; try done.
    intros _. apply run_stored in Hrun as (_ & Hroom & -> & ->).
    by exists b, n, m, t.
Qed.

(** The views of a response are the rows a listing returns, or the one
    comment a 201 announces. *)
Lemma app_view e st req v :
  v ∈ response_views (app e st req).2 →
  (req_route req = GET_comments ∧
   ∃ row, row ∈ rows (db st) ∧ v = list_view row) ∨
  (status (app e st req).2 = 201%Z ∧ response_views (app e st req).2 = [v]).
Proof.
  destruct (decide (status (app e st req).2 = 201%Z)) as [Hs|Hs].
  { destruct (app_created e st req Hs) as (b & n & m & t & _ & _ & _ & _ & _
      & _ & _ & _ & _ & Hr).
    rewrite Hr. intros ->%list_elem_of_singleton. right. done. }
  revert Hs. unfold app. destruct (req_body req) as [err|b].
  { unfold error_middleware. case_match; by intros _ ?%elem_of_nil. }
  destruct (req_route req); try by intros _ ?%elem_of_nil.
  - unfold settle.
    destruct (get_comments _ _ _) as [[d' res]|] eqn:Hg;
      [|by intros _ ?%elem_of_nil].
    cbn [fst snd db].
    intros _ (row & Hin & _ & ->)%(get_comments_views _ _ _ _ _ _ Hg).
    left. split; [done|]. exists row. split; [|done].
    apply get_comments_inv in Hg as (ln & on & _ & _ & -> & _). done.
  - destruct (RateLimit.hit _ _ _ _) as [c pass].
    destruct pass; [|by intros _ ?%elem_of_nil].
    rewrite post_comments_read.
    destruct (field_text b "name") as [n|]; [|by intros _ ?%elem_of_nil].
    destruct (field_text b "email") as [m|]; [|by intros _ ?%elem_of_nil].
    destruct (field_text b "message") as [t|]; [|by intros _ ?%elem_of_nil].
    unfold settle.
    destruct (create_comment_case (storage_ok e) (current_timestamp e)
      (date_now e) (db st) (slice0 100 (trim n)) (slice0 150 (trim m))
      (trim t)); cbn [fst snd db]; try (by intros _ ?%elem_of_nil).
    by intros [].
Qed.


(** ** The limiter in front of the create handler *)

Lemma hit_counted now scope c :
  let w := (now / RateLimit.windowMs commentsLimiter)%Z in
  let n := S (counted w scope c) in
  let c' := (RateLimit.hit commentsLimiter now scope c).1 in
  counted w scope c' = n ∧
  (∀ k, k ≠ scope → counted w k c' = counted w k c) ∧
  (RateLimit.hit commentsLimiter now scope c).2 = bool_decide (n ≤ 30).
Proof.
  unfold RateLimit.hit, counted. cbn [fst snd RateLimit.window RateLimit.hits
    RateLimit.max commentsLimiter].
  set (w := (now / RateLimit.windowMs commentsLimiter)%Z).
  rewrite (bool_decide_eq_true_2 (w = w)) by done.
  destruct (bool_decide (RateLimit.window c = w)); rewrite lookup_insert_eq;
    cbn [default]; rewrite ?lookup_empty; cbn [default];
    (split; [done|]); (split; [|done]); intros k Hk;
    rewrite lookup_insert_ne by done; by rewrite ?lookup_empty.
Qed.

Lemma settle_limiter st r : limiter (settle st r).1 = limiter st.
Proof. by destruct r as [[??]|]. Qed.

Lemma settle_status st r :
  (∀ d res, r = Some (d, res) → status res ≠ 429%Z) →
  status (settle st r).2 ≠ 429%Z.
Proof. destruct r as [[??]|]; simpl; [eauto|done]. Qed.

Lemma app_limiter_other e st req :
  req_route req ≠ POST_comments →
  limiter (app e st req).1 = limiter st ∧ status (app e st req).2 ≠ 429%Z.
Proof.
  intros Hr. unfold app.
  destruct (req_body req) as [err|b]; cbn [fst snd].
  { split; [done|]. unfold error_middleware. by case_match. }
  destruct (req_route req); try done; cbn [fst snd].
  rewrite settle_limiter. split; [done|]. apply settle_status.
  intros d res Hg%get_comments_status E. rewrite E in Hg.
  rewrite !elem_of_cons, elem_of_nil in Hg. naive_solver.
Qed.

(** What the application does with a create request that the body parser
    lets through: the limiter counts it, and only a request within the cap
    reaches the handler. *)
Lemma app_create e st req b :
  req_route req = POST_comments → req_body req = Parsed b →
  let h := RateLimit.hit commentsLimiter (clock e) (req_scope req)
             (limiter st) in
  limiter (app e st req).1 = h.1 ∧
  (h.2 = false →
     (app e st req).2 = {| status := 429; body := None |} ∧
     db (app e st req).1 = db st) ∧
  (h.2 = true →
     app e st req =
       settle {| db := db st; dbReady := dbReady st; limiter := h.1 |}
         (post_comments (storage_ok e) (current_timestamp e) (date_now e)
            (db st) b)).
Proof.
  intros Hr Hb. unfold app. rewrite Hr, Hb.
  destruct (RateLimit.hit _ _ _ _) as [c pass]. cbn [fst snd].
  destruct pass; [rewrite settle_limiter|]; naive_solver.
Qed.

(** A create request that the limiter lets through is answered by the
    handler. *)
Lemma app_handled e st req b :
  req_route req = POST_comments → req_body req = Parsed b →
  status (app e st req).2 ≠ 429%Z →
  is_Some (post_comments (storage_ok e) (current_timestamp e) (date_now e)
             (db st) b) →
  post_comments (storage_ok e) (current_timestamp e) (date_now e) (db st) b
  = Some (db (app e st req).1, (app e st req).2).
Proof.
  intros Hr Hb Hs [[d' res] Hp].
  destruct (app_create e st req b Hr Hb) as (_ & Hno & Hyes).
  destruct (RateLimit.hit commentsLimiter (clock e) (req_scope req)
              (limiter st)).2 eqn:Hpass.
  - rewrite (Hyes eq_refl), Hp. done.
  - destruct (Hno eq_refl) as [Hres _]. rewrite Hres in Hs. done.
Qed.

Lemma is_create_inv scope req :
  is_create scope req = true ↔
    req_route req = POST_comments ∧ req_scope req = scope ∧
    ∃ b, req_body req = Parsed b.
Proof.
  unfold is_create.
  destruct (req_route req), (req_body req); rewrite ?bool_decide_eq_true;
    naive_solver.
Qed.

Lemma app_create_hit e st req scope :
  is_create scope req = true →
  let n := S (counted (window_of e) scope (limiter st)) in
  counted (window_of e) scope (limiter (app e st req).1) = n ∧
  (status (app e st req).2 = 429%Z ↔ 30 < n).
Proof.
  intros (Hr & <- & b & Hb)%is_create_inv.
  destruct (app_create e st req b Hr Hb) as (Hl & Hno & Hyes).
  destruct (hit_counted (clock e) (req_scope req) (limiter st))
    as (Hn & _ & Hp).
  fold (window_of e) in Hn, Hp. cbn zeta. rewrite Hl, Hn. split; [done|].
  rewrite Hp in Hno, Hyes. case_bool_decide as Hle.
  - rewrite Hyes by done. split; [|lia]. intros E. exfalso. revert E.
    apply settle_status. intros d res Hs%post_comments_status E.
    rewrite E, !elem_of_cons, elem_of_nil in Hs. naive_solver.
  - destruct Hno as [-> _]; [done|]. split; [lia|done].
Qed.

Lemma app_other_hit e st req scope :
  is_create scope req = false →
  counted (window_of e) scope (limiter (app e st req).1)
  = counted (window_of e) scope (limiter st).
Proof.
  intros Hc. destruct (decide (req_route req = POST_comments)) as [Hr|Hr];
    [|by destruct (app_limiter_other e st req Hr) as [-> _]].
  destruct (req_body req) as [err|b] eqn:Hb.
  { unfold app. by rewrite Hb. }
  destruct (app_create e st req b Hr Hb) as (-> & _).
  destruct (hit_counted (clock e) (req_scope req) (limiter st))
    as (_ & Hk & _).
  apply Hk. intros E.
  apply not_true_iff_false in Hc. apply Hc, is_create_inv. eauto.
Qed.

Lemma run_app_counted w scope l : ∀ st,
  Forall (λ x, window_of x.1 = w) l →
  counted w scope (limiter (run_app st l).1)
  = counted w scope (limiter st)
    + length (filter (λ x, is_create scope x.2 = true) l).
Proof.
  induction l as [|[e req] l IH]; intros st Hw; cbn [run_app].
  { simpl. lia. }
  apply Forall_cons in Hw as [He Hw]. cbn [fst] in He.
  pose proof (app_create_hit e st req scope) as Hhit.
  pose proof (app_other_hit e st req scope) as Hoth.
  destruct (app e st req) as [st1 r] eqn:Ha.
  specialize (IH st1 Hw).
  destruct (run_app st1 l) as [st2 rs] eqn:Hrun. cbn [fst snd] in *.
  rewrite IH, filter_cons. cbn [snd]. rewrite He in Hhit, Hoth.
  destruct (is_create scope req) eqn:Hc.
  - destruct Hhit as [-> _]; [done|].
    rewrite decide_True by done. simpl. lia.
  - rewrite Hoth by done. rewrite decide_False by done. lia.
Qed.

Lemma let_through_bound w scope l : ∀ st,
  Forall (λ x, window_of x.1 = w) l →
  let_through scope st l ≤ 30 - counted w scope (limiter st).
Proof.
  induction l as [|[e req] l IH]; intros st Hw; cbn [let_through]; [lia|].
  apply Forall_cons in Hw as [He Hw]. cbn [fst] in He.
  pose proof (app_create_hit e st req scope) as Hhit.
  pose proof (app_other_hit e st req scope) as Hoth.
  destruct (app e st req) as [st1 r] eqn:Ha.
  specialize (IH st1 Hw). cbn [fst snd] in *. rewrite He in Hhit, Hoth.
  destruct (is_create scope req) eqn:Hc; cbn [andb].
  - destruct Hhit as [Hn Hs]; [done|]. rewrite Hn in IH.
    destruct (Z.eqb_spec (status r) 429) as [E|E]; cbn [negb].
    + lia.
    + assert (¬ 30 < S (counted w scope (limiter st))) by by rewrite <- Hs.
      lia.
  - rewrite Hoth in IH by done. lia.
Qed.


(** ** The statements of the specification *)

Lemma app_no_email e st req : discloses "email" (app e st req).2 = false.
Proof.
  unfold app. destruct (req_body req) as [err|b].
  { unfold error_middleware. by case_match. }
  destruct (req_route req); try done.
  - unfold settle.
    destruct (get_comments _ _ _) as [[d' res]|] eqn:Hg; [|done].
    apply get_comments_inv in Hg
      as (ln & on & _ & _ & _ & [->|(l & o & _ & _ & _ & _ & _ & ->)]);
      [done|].
    unfold discloses. cbn [snd body res_json].
    cbn [mentions existsb fst snd].
    change (existsb (mentions (str "email")) ?l)
      with (mentions (str "email") (JArr l)).
    by rewrite mentions_list_views by compute_done.
  - destruct (RateLimit.hit _ _ _ _) as [c pass]. destruct pass; [|done].
    rewrite post_comments_read.
    destruct (field_text b "name") as [n|]; [|done].
    destruct (field_text b "email") as [m|]; [|done].
    destruct (field_text b "message") as [t|]; [|done].
    unfold settle.
    by destruct (create_comment_case (storage_ok e) (current_timestamp e)
      (date_now e) (db st) (slice0 100 (trim n)) (slice0 150 (trim m))
      (trim t)).
Qed.

(** C1.  Whatever the requests and whatever the table holds, no response of
    the program is a document with an [email] member, at any depth: not the
    listing, not the answer to a create request, not an error.  The email
    of a comment is stored (see [run_stored]) and stays there. *)
Theorem C1_email_never_returned (st : state)
    (l : list (environment * request)) :
  Forall (λ r, discloses "email" r = false) (run_app st l).2.
Proof.
  revert st. induction l as [|[e req] l IH]; intros st; cbn [run_app].
  { constructor. }
  pose proof (app_no_email e st req) as Hr.
  destruct (app e st req) as [st1 r].
  specialize (IH st1). destruct (run_app st1 l) as [st2 rs].
  by constructor.
Qed.

(** A comment with an email goes in; the table keeps the email, the two
    responses do not show it. *)
Example email_stored_not_returned :
  let run := run_app start
               [(noon, create_request "Ana" "ana@example.com" "Hola a todos");
                (noon, list_request [])] in
  r_email <$> rows (db run.1) = [Some (str "ana@example.com")] ∧
  status <$> run.2 = [201; 200]%Z ∧
  discloses "email" <$> run.2 = [false; false].
Proof. vm_compute. done. Qed.


(** C2, as stated, fails: the message of a response may hold a literal
    ampersand, the first character of every entity [sanitize] writes. *)
Lemma C2_ampersand_in_response :
  let r := (app noon start (create_request "" "" "Tom & Jerry")).2 in
  status r = 201%Z ∧
  view_member "message" <$> response_views r
    = [Some (JStr (str "Tom &amp; Jerry"))] ∧
  amp ∈ str "Tom &amp; Jerry".
Proof. vm_compute. repeat split. do 4 right. left. Qed.

(** C2, amended.  [sanitize] makes the five replacements in the order of the
    source, ampersand first, which amounts to replacing every character once
    by its entry in the table [escape].  A view of a listing shows
    [sanitize] of the message of the row it shows.  The view of a create
    response shows [sanitize] of the trimmed message of the request; what
    the insertion is given is that trimmed message itself, not its
    sanitized form, and the row keeps it as texts are stored: with U+FFFD
    in the place of every unpaired surrogate and no other change.  A
    sanitized message holds no literal [<], [>], double quote or
    apostrophe, and every [&] in it is the first character of one of the
    five entities. *)
Theorem C2_sanitize_in_responses :
  (∀ s, sanitize s
        = replace_all apos (str "&#39;")
            (replace_all quot (str "&quot;")
              (replace_all gt (str "&gt;")
                (replace_all lt (str "&lt;")
                  (replace_all amp (str "&amp;") s))))
        ∧ sanitize s = s ≫= escape) ∧
  (∀ e st req v,
     v ∈ response_views (app e st req).2 →
     (req_route req = GET_comments ∧
      ∃ row, row ∈ rows (db st) ∧ v = list_view row ∧
        view_member "message" v = Some (JStr (sanitize (r_message row)))) ∨
     (req_route req = POST_comments ∧
      ∃ b message row,
        req_body req = Parsed b ∧ field_text b "message" = Some message ∧
        response_views (app e st req).2 = [v] ∧
        view_member "message" v = Some (JStr (sanitize (trim message))) ∧
        rows (db (app e st req).1) = rows (db st) ++ [row] ∧
        r_message row = stored_text (trim message) ∧
        ∃ name email date,
          journal (db (app e st req).1)
          = journal (db st) ++
            [InsertComment name email (trim message) date])) ∧
  (∀ s i, stored_text s !! i
          = (λ c : unit16, if unpaired s i then 65533%N else c) <$> s !! i) ∧
  (∀ s,
     (∀ c, c ∈ sanitize s → c ≠ lt ∧ c ≠ gt ∧ c ≠ quot ∧ c ≠ apos) ∧
     (∀ pre post, sanitize s = pre ++ amp :: post →
        ∃ entity, entity ∈ entities ∧ entity `prefix_of` amp :: post)).
Proof.
  split; [|split; [|split]].
  - intros s. split; [reflexivity|apply sanitize_escape].
  - intros e st req v Hv.
    destruct (app_view e st req v Hv) as [(Hr & row & Hin & ->)|(Hs & Hvs)].
    { left. split; [done|]. by exists row. }
    right.
    destruct (app_created e st req Hs)
      as (b & n & m & t & Hr & Hb & _ & _ & Ht & _ & _ & _ & Hd & Hres).
    split; [done|]. rewrite Hres, response_views_item in Hvs.
    injection Hvs as <-. eexists b, t, _. rewrite Hd. cbn [rows journal].
    split; [done|]. split; [done|].
    split; [by rewrite Hres, response_views_item|].
    split; [reflexivity|]. split; [reflexivity|]. split; [reflexivity|].
    by eexists _, _, _.
  - apply stored_text_lookup.
  - intros s. split.
    + intros c. apply sanitize_no_markup.
    + intros pre post. apply sanitize_amp.
Qed.

Lemma C2_sanitize_in_responses_witness :
  let req := create_request "Ana" "" "1 < 2 & 'x'" in
  let v := item_view 1 (str "Ana") (str "1 < 2 & 'x'") (date_now noon) in
  v ∈ response_views (app noon start req).2 ∧
  (∃ b message row,
     req_body req = Parsed b ∧ field_text b "message" = Some message ∧
     view_member "message" v = Some (JStr (sanitize (trim message))) ∧
     rows (db (app noon start req).1) = rows (db start) ++ [row] ∧
     r_message row = stored_text (trim message)) ∧
  sanitize (str "1 < 2 & 'x'") = str "1 &lt; 2 &amp; &#39;x&#39;" ∧
  ∃ entity, entity ∈ entities ∧
            entity `prefix_of` amp :: str "lt; 2 &amp; &#39;x&#39;".
Proof.
  assert (item_view 1 (str "Ana") (str "1 < 2 & 'x'") (date_now noon)
          ∈ response_views
              (app noon start (create_request "Ana" "" "1 < 2 & 'x'")).2)
    as Hv by (vm_compute; left).
  cbn zeta. split; [exact Hv|]. split; [|split].
  - destruct (proj1 (proj2 C2_sanitize_in_responses) noon start
                (create_request "Ana" "" "1 < 2 & 'x'") _ Hv)
      as [[Hr _]|[_ (b & t & row & Hb & Ht & _ & Hm & Hrows & Hrow & _)]].
    { discriminate Hr. }
    exists b, t, row. repeat split; assumption.
  - vm_compute. reflexivity.
  - exact (proj2 (proj2 (proj2 (proj2 C2_sanitize_in_responses))
                    (str "1 < 2 & 'x'"))
             (str "1 ") (str "lt; 2 &amp; &#39;x&#39;") eq_refl).
Defined.


Lemma field_text_falsy b k raw :
  get b (str k) = Some raw → truthy raw = false → field_text b k = Some [].
Proof.
  intros Hg Ht. unfold field_text, or_else. rewrite Hg. cbn [mbind option_bind].
  by rewrite Ht.
Qed.

(** C3, as stated, fails: the handler reads [name] before it looks at the
    message, and a name that cannot be read as text (an object whose own
    [toString] is not a function) makes it throw.  With such a name a
    message of four characters is answered 500 INTERNAL_ERROR, not 400
    VALIDATION_MIN_LENGTH. *)
Lemma C3_short_message_unreadable_name :
  let b := VObj [(str "name", VObj [(str "toString", VNull)]);
                 (str "message", VStr (str "Hola"))] in
  let req := {| req_route := POST_comments; req_scope := str "203.0.113.7";
                req_query := VObj []; req_body := Parsed b |} in
  field_text b "message" = Some (str "Hola") ∧
  length (trim (str "Hola")) = 4 ∧
  field_text b "name" = None ∧
  post_comments true (current_timestamp noon) (date_now noon)
    empty_database b = None ∧
  (app noon start req).2 = res_json 500 (failure "INTERNAL_ERROR") ∧
  (app noon start req).2
  ≠ res_json 400 (failure_on "VALIDATION_MIN_LENGTH" "message").
Proof. vm_compute. repeat split. discriminate. Qed.

(** C3, amended.  For a create request whose three fields can be read as
    text, the message is measured after trimming.  With fewer than 5
    characters (none at all when the field is absent, null or empty) the
    answer is 400 VALIDATION_MIN_LENGTH on [message]; with more than 2000 it
    is 400 VALIDATION_MAX_LENGTH on [message]; from 5 to 2000, both ends
    included, neither of the two is the answer, and the comment is created
    (201) whenever the email passes its own check, the engine is at work
    and the table has an id left.  What the handler answers is what the
    application answers to a create request, unless the limiter stops
    it. *)
Theorem C3_message_length (ok : bool) (timestamp date : jsstring)
    (d : database) (b : value) (name email message : jsstring) :
  field_text b "name" = Some name →
  field_text b "email" = Some email →
  field_text b "message" = Some message →
  let too_short :=
    res_json 400 (failure_on "VALIDATION_MIN_LENGTH" "message") in
  let too_long :=
    res_json 400 (failure_on "VALIDATION_MAX_LENGTH" "message") in
  let answer := post_comments ok timestamp date d b in
  (length (trim message) < 5 → answer = Some (d, too_short)) ∧
  (∀ raw, get b (str "message") = Some raw → truthy raw = false →
     answer = Some (d, too_short)) ∧
  (2000 < length (trim message) → answer = Some (d, too_long)) ∧
  (5 ≤ length (trim message) ≤ 2000 →
     ∃ d' res, answer = Some (d', res) ∧ res ≠ too_short ∧ res ≠ too_long ∧
       (ok = true → (high_water d < 2 ^ 63 - 1)%Z →
        slice0 150 (trim email) = [] ∨ email_shape (slice0 150 (trim email)) →
        status res = 201%Z)) ∧
  (∀ e st req,
     req_route req = POST_comments → req_body req = Parsed b →
     status (app e st req).2 ≠ 429%Z →
     post_comments (storage_ok e) (current_timestamp e) (date_now e)
       (db st) b
     = Some (db (app e st req).1, (app e st req).2)).
Proof.
  intros Hn He Hm. cbn zeta.
  split; [|split; [|split; [|split]]]; cycle 4.
  { intros e st req Hr Hb Hs. apply app_handled; [done..|].
    rewrite post_comments_read, Hn, He, Hm. by eexists. }
  all: rewrite post_comments_read, Hn, He, Hm.
  - intros Hlen.
    destruct (create_comment_case ok timestamp date d
      (slice0 100 (trim name)) (slice0 150 (trim email)) (trim message));
      [done|lia..].
  - intros raw Hg Ht.
    rewrite (field_text_falsy b "message" raw Hg Ht) in Hm.
    injection Hm as <-.
    destruct (create_comment_case ok timestamp date d
      (slice0 100 (trim name)) (slice0 150 (trim email)) (trim []));
      [done|simpl in *; lia..].
  - intros Hlen.
    destruct (create_comment_case ok timestamp date d
      (slice0 100 (trim name)) (slice0 150 (trim email)) (trim message));
      [lia|done|lia..].
  - intros Hlen.
    destruct (create_comment_case ok timestamp date d
      (slice0 100 (trim name)) (slice0 150 (trim email)) (trim message))
      as [?|?|? ? Hno|d' id ? ? ? Hrun|d' ? ? Hfail Hrun]; [lia|lia|..];
      eexists _, _; (split; [reflexivity|]); (split; [done|]);
      (split; [done|]).
    + intros _ _ [?|?]; done.
    + done.
    + intros -> Hroom _. exfalso. destruct Hfail as [?|?]; [done|lia].
Qed.

Lemma C3_message_length_witness :
  let b := VObj [(str "message", VStr (str "  hola  "))] in
  let b5 := VObj [(str "message", VStr (str "  holas  "))] in
  (post_comments true (current_timestamp noon) (date_now noon)
     empty_database b
   = Some (empty_database,
           res_json 400 (failure_on "VALIDATION_MIN_LENGTH" "message"))) ∧
  (∃ d' res,
     post_comments true (current_timestamp noon) (date_now noon)
       empty_database b5 = Some (d', res) ∧ status res = 201%Z).
Proof.
  cbn zeta. split.
  - refine (proj1 (C3_message_length true (current_timestamp noon)
              (date_now noon) empty_database
              (VObj [(str "message", VStr (str "  hola  "))])
              [] [] (str "  hola  ") eq_refl eq_refl eq_refl) _).
    vm_compute. lia.
  - destruct (proj1 (proj2 (proj2 (proj2 (C3_message_length true
              (current_timestamp noon) (date_now noon) empty_database
              (VObj [(str "message", VStr (str "  holas  "))])
              [] [] (str "  holas  ") eq_refl eq_refl eq_refl)))))
      as (d' & res & Ha & _ & _ & Hs).
    { vm_compute. lia. }
    exists d', res. split; [exact Ha|].
    apply Hs; [reflexivity|vm_compute; reflexivity|by left].
Defined.


(** The four lengths the specification names: 4 and 2001 are refused, 5 and
    2000 are stored. *)
Example message_length_bounds :
  let answer n :=
    snd <$> post_comments true (current_timestamp noon) (date_now noon)
              empty_database
              (VObj [(str "message", VStr (replicate n 97%N))]) in
  answer 4
    = Some (res_json 400 (failure_on "VALIDATION_MIN_LENGTH" "message")) ∧
  status <$> answer 5 = Some 201%Z ∧
  status <$> answer 2000 = Some 201%Z ∧
  answer 2001
    = Some (res_json 400 (failure_on "VALIDATION_MAX_LENGTH" "message")).
Proof. vm_compute. done. Qed.

(** A value whose own [toString] is not a function makes the handler throw:
    the error middleware answers, and nothing is written. *)
Example field_that_throws :
  let req :=
    {| req_route := POST_comments; req_scope := str "203.0.113.7";
       req_query := VObj [];
       req_body :=
         Parsed (VObj [(str "name", VObj [(str "toString", VNull)]);
                       (str "message", VStr (str "Hola a todos"))]) |} in
  (app noon start req).2 = res_json 500 (failure "INTERNAL_ERROR") ∧
  db (app noon start req).1 = db start.
Proof. vm_compute. done. Qed.


(** C4, as stated, fails for the same reason as C3: the three fields are
    read before any check, and with a name that cannot be read as text an
    email that is not of the shape is answered 500 INTERNAL_ERROR, not 400
    VALIDATION_EMAIL. *)
Lemma C4_bad_email_unreadable_name :
  let b := VObj [(str "name", VObj [(str "toString", VNull)]);
                 (str "email", VStr (str "not-an-email"));
                 (str "message", VStr (str "Hola a todos"))] in
  let req := {| req_route := POST_comments; req_scope := str "203.0.113.7";
                req_query := VObj []; req_body := Parsed b |} in
  field_text b "email" = Some (str "not-an-email") ∧
  email_test (slice0 150 (trim (str "not-an-email"))) = false ∧
  field_text b "message" = Some (str "Hola a todos") ∧
  length (trim (str "Hola a todos")) = 12 ∧
  field_text b "name" = None ∧
  (app noon start req).2 = res_json 500 (failure "INTERNAL_ERROR") ∧
  (app noon start req).2
  ≠ res_json 400 (failure_on "VALIDATION_EMAIL" "email").
Proof. vm_compute. repeat split. discriminate. Qed.

(** C4, amended.  For a create request whose three fields can be read as
    text, the checks run in the order minimum length of the message,
    maximum length of the message, email, and the first that fails decides
    the answer: a message that is too short or too long is refused as such
    whatever the email; with a message of 5 to 2000 characters, an email
    that after trimming and truncation to 150 characters is not empty and
    is not of the shape non-space characters, [@], non-space characters,
    [.], non-space characters is refused with 400 VALIDATION_EMAIL on
    [email]; an empty or absent email is not held against the pattern, and
    is not refused.  What the handler answers is what the application
    answers to a create request, unless the limiter stops it. *)
Theorem C4_validation_order (ok : bool) (timestamp date : jsstring)
    (d : database) (b : value) (name email message : jsstring) :
  field_text b "name" = Some name →
  field_text b "email" = Some email →
  field_text b "message" = Some message →
  let mail := slice0 150 (trim email) in
  let text := trim message in
  let answer := post_comments ok timestamp date d b in
  (length text < 5 →
     answer = Some (d, res_json 400
                         (failure_on "VALIDATION_MIN_LENGTH" "message"))) ∧
  (2000 < length text →
     answer = Some (d, res_json 400
                         (failure_on "VALIDATION_MAX_LENGTH" "message"))) ∧
  (5 ≤ length text ≤ 2000 → mail ≠ [] → ¬ email_shape mail →
     answer = Some (d, res_json 400
                         (failure_on "VALIDATION_EMAIL" "email"))) ∧
  (5 ≤ length text ≤ 2000 → mail = [] ∨ email_shape mail →
     ∃ d' res, answer = Some (d', res) ∧ status res ≠ 400%Z ∧
               (ok = true → (high_water d < 2 ^ 63 - 1)%Z →
                status res = 201%Z)) ∧
  (email_test mail = true ↔ email_shape mail) ∧
  (∀ e st req,
     req_route req = POST_comments → req_body req = Parsed b →
     status (app e st req).2 ≠ 429%Z →
     post_comments (storage_ok e) (current_timestamp e) (date_now e)
       (db st) b
     = Some (db (app e st req).1, (app e st req).2)).
Proof.
  intros Hn He Hm. cbn zeta.
  split; [|split; [|split; [|split; [|split]]]]; cycle 5.
  { intros e st req Hr Hb Hs. apply app_handled; [done..|].
    rewrite post_comments_read, Hn, He, Hm. by eexists. }
  all: rewrite ?post_comments_read, ?Hn, ?He, ?Hm.
  all: pose proof (create_comment_case ok timestamp date d
    (slice0 100 (trim name)) (slice0 150 (trim email)) (trim message)) as Hc.
  - intros Hlen. destruct Hc; [done|lia..].
  - intros Hlen. destruct Hc; [lia|done|lia..].
  - intros Hlen Hne Hno. destruct Hc as [?|?|?|? ? ? [?|?]|? ? [?|?]];
      first [lia|done].
  - intros Hlen Hok.
    destruct Hc as [?|?|? ? Hno|d' id ? ? ? Hrun|d' ? ? Hfail Hrun];
      [lia|lia|..].
    + by destruct Hok.
    + by eexists _, _.
    + eexists _, _. split; [reflexivity|]. split; [done|].
      intros -> Hroom. exfalso. destruct Hfail as [?|?]; [done|lia].
  - apply email_test_shape.
Qed.

Lemma C4_validation_order_witness :
  let b := VObj [(str "email", VStr (str " not-an-email "));
                 (str "message", VStr (str "Hola a todos"))] in
  let short := VObj [(str "email", VStr (str "not-an-email"));
                     (str "message", VStr (str "Hola"))] in
  post_comments true (current_timestamp noon) (date_now noon)
    empty_database b
  = Some (empty_database,
          res_json 400 (failure_on "VALIDATION_EMAIL" "email")) ∧
  post_comments true (current_timestamp noon) (date_now noon)
    empty_database short
  = Some (empty_database,
          res_json 400 (failure_on "VALIDATION_MIN_LENGTH" "message")).
Proof.
  cbn zeta. split.
  - refine (proj1 (proj2 (proj2 (C4_validation_order true
              (current_timestamp noon) (date_now noon) empty_database
              (VObj [(str "email", VStr (str " not-an-email "));
                     (str "message", VStr (str "Hola a todos"))])
              [] (str " not-an-email ") (str "Hola a todos")
              eq_refl eq_refl eq_refl))) _ _ _).
    + vm_compute. lia.
    + vm_compute. discriminate.
    + intros Hs. apply email_test_shape in Hs. vm_compute in Hs. discriminate.
  - refine (proj1 (C4_validation_order true
              (current_timestamp noon) (date_now noon) empty_database
              (VObj [(str "email", VStr (str "not-an-email"));
                     (str "message", VStr (str "Hola"))])
              [] (str "not-an-email") (str "Hola")
              eq_refl eq_refl eq_refl) _).
    vm_compute. lia.
Defined.






(** C6.  A listing that succeeds returns the views of the rows from position
    [offset] on, [limit] of them at most, of the whole table put in the
    order newest first: of two returned rows the earlier has the greater
    [created_at], or the same and an id that is not smaller. *)
Theorem C6_listing_newest_first (ok : bool) (d d' : database) (q : value)
    (res : response) :
  get_comments ok d q = Some (d', res) → status res = 200%Z →
  ∃ (limit offset : nat) (sorted returned : list row),
    list_limit q = Some (Fin (Z.of_nat limit)) ∧
    list_offset q = Some (Fin (Z.of_nat offset)) ∧
    sorted ≡ₚ rows d ∧
    returned = take limit (drop offset sorted) ∧
    response_views res = list_view <$> returned ∧
    length (response_views res) ≤ limit ∧
    (∀ i j a b, i < j → sorted !! i = Some a → sorted !! j = Some b →
       text_compare (r_created_at b) (r_created_at a) = Lt ∨
       (r_created_at a = r_created_at b ∧ (r_id b ≤ r_id a)%Z)) ∧
    (∀ i j a b, i < j → returned !! i = Some a → returned !! j = Some b →
       text_compare (r_created_at b) (r_created_at a) = Lt ∨
       (r_created_at a = r_created_at b ∧ (r_id b ≤ r_id a)%Z)).
Proof.
  intros (ln & on & Hl & Ho & _ & [->|(l & o & -> & -> & Hlr & Hor & _ & ->)])
    %get_comments_inv; [done|].
  intros _.
  exists (Z.to_nat l), (Z.to_nat o), (order_by_created_at_desc_id_desc (rows d)),
    (take (Z.to_nat l) (drop (Z.to_nat o)
       (order_by_created_at_desc_id_desc (rows d)))).
  rewrite !Z2Nat.id by lia.
  split; [done|]. split; [done|]. split; [apply order_by_permutation|].
  split; [done|]. split; [done|]. split.
  { change (response_views _) with
      (list_view <$> take (Z.to_nat l) (drop (Z.to_nat o)
         (order_by_created_at_desc_id_desc (rows d)))).
    rewrite length_fmap, length_take. lia. }
  pose proof (order_by_sorted (rows d)) as Hs.
  split; intros i j a b Hij Ha Hb; apply newest_first_spec.
  - by eapply (StronglySorted_lookup_lt newest_first).
  - eapply (StronglySorted_lookup_lt newest_first);
      [by apply StronglySorted_take_drop|done..].
Qed.

Lemma C6_listing_newest_first_witness :
  let q := VObj [(str "limit", VStr (str "2"));
                 (str "offset", VStr (str "1"))] in
  ∃ d' res,
    get_comments true three_rows q = Some (d', res) ∧ status res = 200%Z ∧
    ∃ (limit offset : nat) (sorted returned : list row),
      list_limit q = Some (Fin (Z.of_nat limit)) ∧
      list_offset q = Some (Fin (Z.of_nat offset)) ∧
      sorted ≡ₚ rows three_rows ∧
      returned = take limit (drop offset sorted) ∧
      response_views res = list_view <$> returned ∧
      length (response_views res) ≤ limit ∧
      (∀ i j a b, i < j → sorted !! i = Some a → sorted !! j = Some b →
         text_compare (r_created_at b) (r_created_at a) = Lt ∨
         (r_created_at a = r_created_at b ∧ (r_id b ≤ r_id a)%Z)) ∧
      (∀ i j a b, i < j → returned !! i = Some a → returned !! j = Some b →
         text_compare (r_created_at b) (r_created_at a) = Lt ∨
         (r_created_at a = r_created_at b ∧ (r_id b ≤ r_id a)%Z)).
Proof.
  cbn zeta. eexists _, _. split; [vm_compute; reflexivity|].
  split; [reflexivity|].
  eapply (C6_listing_newest_first true three_rows); [|reflexivity].
  vm_compute. reflexivity.
Defined.

(** Three rows, two of the same second: the newest first, then the greater
    id; one row skipped, two returned. *)
Example listing_of_three :
  let res := (app noon {| db := three_rows; dbReady := true;
                          limiter := RateLimit.fresh |}
                (list_request [("limit", "2"); ("offset", "1")])).2 in
  (λ v, view_member "id" v) <$> response_views res
  = [Some (JNum 2); Some (JNum 1)].
Proof. vm_compute. reflexivity. Qed.


Lemma not_refusal (res : response) :
  status res ≠ 400%Z → res ∉ refusals.
Proof.
  intros Hs. unfold refusals. rewrite !elem_of_cons, elem_of_nil.
  intros [->|[->|[->|[->|[]]]]]; by apply Hs.
Qed.

(** C7.  A create request answered with one of the four refusals (message
    too short, message too long, email not of the shape, body not JSON)
    leaves the database as it was: the same rows, the same counter, and no
    statement run. *)
Theorem C7_refusal_before_any_write (e : environment) (st : state)
    (req : request) :
  req_route req = POST_comments →
  (app e st req).2 ∈ refusals →
  db (app e st req).1 = db st.
Proof.
  intros Hr. unfold app. rewrite Hr.
  destruct (req_body req) as [err|b]; [done|].
  destruct (RateLimit.hit _ _ _ _) as [c pass]. destruct pass; [|done].
  rewrite post_comments_read.
  destruct (field_text b "name") as [n|]; [|done].
  destruct (field_text b "email") as [m|]; [|done].
  destruct (field_text b "message") as [t|]; [|done].
  unfold settle.
  destruct (create_comment_case (storage_ok e) (current_timestamp e)
    (date_now e) (db st) (slice0 100 (trim n)) (slice0 150 (trim m))
    (trim t)); cbn [fst snd db]; try done.
  - intros []%not_refusal. done.
  - intros []%not_refusal. done.
Qed.

Lemma C7_refusal_before_any_write_witness :
  let req := create_request "Ana" "not-an-email" "Hola a todos" in
  (app noon start req).2
    = res_json 400 (failure_on "VALIDATION_EMAIL" "email") ∧
  db (app noon start req).1 = db start.
Proof.
  cbn zeta. split; [vm_compute; reflexivity|].
  apply (C7_refusal_before_any_write noon start
           (create_request "Ana" "not-an-email" "Hola a todos") eq_refl).
  vm_compute. do 2 right. left.
Defined.





(** The email is held against the pattern after the cut: one that loses its
    dot to the cut is refused as an email, not for its length. *)
Example email_cut_before_check :
  let mail := replicate 148 97%N ++ str "@b.co" in
  email_test mail = true ∧
  snd <$> post_comments true (current_timestamp noon) (date_now noon)
            empty_database
            (VObj [(str "email", VStr mail);
                   (str "message", VStr (str "Hola a todos"))])
  = Some (res_json 400 (failure_on "VALIDATION_EMAIL" "email")).
Proof. vm_compute. done. Qed.

(** C9.  Spec-modelled limiter, configured as on line 68 and placed as on
    line 115: 30 requests per window of 60 seconds and per scope.  A create
    request is stopped with status 429 exactly when its scope has 30 hits
    or more in the current window; so after 30 create requests of a scope
    in a window the next one of that window is stopped, whatever else was
    served in between; no run within one window lets more than 30 through;
    the first request of a scope in another window passes; and requests to
    the other routes are neither counted nor stopped. *)
Theorem C9_create_rate_limit :
  RateLimit.windowMs commentsLimiter = 60000%Z ∧
  RateLimit.max commentsLimiter = 30 ∧
  (∀ e st scope req, is_create scope req = true →
     (status (app e st req).2 = 429%Z
      ↔ 30 ≤ counted (window_of e) scope (limiter st))) ∧
  (∀ st w scope l e req,
     Forall (λ x, window_of x.1 = w) l → window_of e = w →
     30 ≤ length (filter (λ x, is_create scope x.2 = true) l) →
     is_create scope req = true →
     status (app e (run_app st l).1 req).2 = 429%Z) ∧
  (∀ st w scope l,
     Forall (λ x, window_of x.1 = w) l → let_through scope st l ≤ 30) ∧
  (∀ e st scope req,
     is_create scope req = true →
     RateLimit.window (limiter st) ≠ window_of e →
     status (app e st req).2 ≠ 429%Z) ∧
  (∀ e st req,
     req_route req ≠ POST_comments →
     status (app e st req).2 ≠ 429%Z ∧
     limiter (app e st req).1 = limiter st).
Proof.
  split; [reflexivity|]. split; [reflexivity|].
  assert (∀ e st scope req, is_create scope req = true →
            (status (app e st req).2 = 429%Z
             ↔ 30 ≤ counted (window_of e) scope (limiter st))) as Hiff.
  { intros e st scope req Hc.
    destruct (app_create_hit e st req scope Hc) as [_ ->]. lia. }
  split; [exact Hiff|]. split; [|split; [|split]].
  - intros st w scope l e req Hl <- Hn Hc. apply (Hiff _ _ scope); [done|].
    rewrite (run_app_counted _ scope l st Hl). lia.
  - intros st w scope l Hl.
    pose proof (let_through_bound w scope l st Hl). lia.
  - intros e st scope req Hc Hw. rewrite (Hiff e st scope req Hc).
    unfold counted. rewrite bool_decide_eq_false_2 by done. lia.
  - intros e st req Hr. destruct (app_limiter_other e st req Hr). done.
Qed.

Lemma C9_create_rate_limit_witness :
  let req := create_request "Ana" "" "Hola a todos" in
  let later :=
    {| clock := clock noon + 60000; date_now := date_now noon;
       current_timestamp := current_timestamp noon; storage_ok := true |} in
  let st := (run_app start (replicate 30 (noon, req))).1 in
  status (app noon st req).2 = 429%Z ∧
  status (app later st req).2 ≠ 429%Z ∧
  status (app noon st (list_request [])).2 ≠ 429%Z.
Proof.
  cbn zeta.
  destruct C9_create_rate_limit as (_ & _ & _ & H31 & _ & Hreset & Hother).
  split; [|split].
  - apply (H31 start (window_of noon) (str "203.0.113.7")
             (replicate 30 (noon, create_request "Ana" "" "Hola a todos"))).
    + apply Forall_forall. intros x Hx.
      apply elem_of_replicate in Hx as [-> _]. reflexivity.
    + reflexivity.
    + vm_compute. lia.
    + reflexivity.
  - apply (Hreset _ _ (str "203.0.113.7")); [reflexivity|].
    vm_compute. discriminate.
  - apply Hother. discriminate.
Defined.


(** C10.  In every view of a list or create response the message has gone
    through [sanitize] and the name has not.  A view of a listing shows the
    name of its row, when that is not empty, character for character,
    markup included.  The view of a create response shows the name of the
    request after trimming and the cut to 100 characters, again as it is;
    that name is what the new row is given, and the row keeps it as texts
    are stored: with U+FFFD in the place of every unpaired surrogate and no
    other change, so never changed at one of the characters [sanitize]
    replaces. *)
Theorem C10_name_not_sanitized :
  (∀ e st req v,
     v ∈ response_views (app e st req).2 →
     (req_route req = GET_comments ∧
      ∃ row, row ∈ rows (db st) ∧ v = list_view row ∧
        view_member "message" v = Some (JStr (sanitize (r_message row))) ∧
        (∀ n, r_name row = Some n → n ≠ [] →
              view_member "name" v = Some (JStr n))) ∨
     (req_route req = POST_comments ∧
      ∃ b name message row,
        req_body req = Parsed b ∧
        field_text b "name" = Some name ∧
        field_text b "message" = Some message ∧
        view_member "message" v = Some (JStr (sanitize (trim message))) ∧
        (slice0 100 (trim name) ≠ [] →
         view_member "name" v = Some (JStr (slice0 100 (trim name)))) ∧
        last (rows (db (app e st req).1)) = Some row ∧
        r_name row = Some (stored_text (slice0 100 (trim name))) ∧
        r_message row = stored_text (trim message))) ∧
  (∀ s i, stored_text s !! i
          = (λ c : unit16, if unpaired s i then 65533%N else c) <$> s !! i) ∧
  (∀ s, Forall (λ c, is_surrogate c = false) s → stored_text s = s) ∧
  (∀ c, special c = true → is_surrogate c = false).
Proof.
  split; [|split; [|split]].
  - intros e st req v Hv.
    destruct (app_view e st req v Hv) as [(Hr & row & Hin & ->)|(Hs & Hvs)].
    { left. split; [done|]. exists row. split; [done|]. split; [done|].
      split; [done|]. intros n Hrow Hne. unfold list_view.
      rewrite Hrow. by destruct n. }
    right.
    destruct (app_created e st req Hs)
      as (b & n & m & t & Hr & Hb & Hn & _ & Ht & _ & _ & _ & Hd & Hres).
    split; [done|]. rewrite Hres, response_views_item in Hvs.
    injection Hvs as <-. eexists b, n, t, _. rewrite Hd. cbn [rows].
    rewrite last_snoc. split; [done|]. split; [done|]. split; [done|].
    split; [reflexivity|]. split; [|done].
    intros Hne. by destruct (slice0 100 (trim n)).
  - apply stored_text_lookup.
  - apply stored_text_plain.
  - intros c. unfold special.
    rewrite !orb_true_iff, !N.eqb_eq.
    intros [[[[->| ->]| ->]| ->]| ->]; reflexivity.
Qed.

Lemma C10_name_not_sanitized_witness :
  let req := create_request "<b>Ana & Co</b>" "" "<i>Hola</i>" in
  let v := item_view 1 (str "<b>Ana & Co</b>") (str "<i>Hola</i>")
             (date_now noon) in
  v ∈ response_views (app noon start req).2 ∧
  (∃ b name message row,
     req_body req = Parsed b ∧
     field_text b "name" = Some name ∧
     field_text b "message" = Some message ∧
     view_member "message" v = Some (JStr (sanitize (trim message))) ∧
     last (rows (db (app noon start req).1)) = Some row ∧
     r_name row = Some (stored_text (slice0 100 (trim name)))) ∧
  view_member "name" v = Some (JStr (str "<b>Ana & Co</b>")) ∧
  r_name <$> rows (db (app noon start req).1)
  = [Some (str "<b>Ana & Co</b>")] ∧
  sanitize (str "<b>Ana & Co</b>") ≠ str "<b>Ana & Co</b>".
Proof.
  assert (item_view 1 (str "<b>Ana & Co</b>") (str "<i>Hola</i>")
            (date_now noon)
          ∈ response_views
              (app noon start
                 (create_request "<b>Ana & Co</b>" "" "<i>Hola</i>")).2)
    as Hv by (vm_compute; left).
  cbn zeta. split; [exact Hv|]. split; [|split; [|split]].
  - destruct (proj1 C10_name_not_sanitized noon start
                (create_request "<b>Ana & Co</b>" "" "<i>Hola</i>") _ Hv)
      as [[Hr _]|[_ (b & n & t & row & Hb & Hn & Ht & Hm & _ & Hl & Hrow
                     & _)]].
    { discriminate Hr. }
    exists b, n, t, row. repeat split; assumption.
  - reflexivity.
  - vm_compute. reflexivity.
  - vm_compute. discriminate.
Defined.

(** * Beyond the specification *)

(** ** More on [sanitize] *)

Lemma escape_plain c : special c = false → escape c = [c].
Proof.
  unfold special, escape. rewrite !orb_false_iff.
  intros ((((-> & ->) & ->) & ->) & ->). done.
Qed.

Lemma escape_special c :
  special c = true → ∃ t, escape c = amp :: t ∧ 3 ≤ length t ≤ 5.
Proof.
  unfold special, escape. intros H.
  destruct (N.eqb_spec c amp); [eexists; split; [reflexivity|simpl; lia]|].
  destruct (N.eqb_spec c lt); [eexists; split; [reflexivity|simpl; lia]|].
  destruct (N.eqb_spec c gt); [eexists; split; [reflexivity|simpl; lia]|].
  destruct (N.eqb_spec c quot); [eexists; split; [reflexivity|simpl; lia]|].
  destruct (N.eqb_spec c apos); [eexists; split; [reflexivity|simpl; lia]|].
  done.
Qed.

(** No entry of the table is the start of another one followed by more
    text: the text tells which character it stands for. *)
Lemma escape_prefix_free c1 c2 r1 r2 :
  escape c1 ++ r1 = escape c2 ++ r2 → c1 = c2 ∧ r1 = r2.
Proof.
  unfold escape.
  destruct (N.eqb_spec c1 amp) as [->|?]; [|
  destruct (N.eqb_spec c1 lt) as [->|?]; [|
  destruct (N.eqb_spec c1 gt) as [->|?]; [|
  destruct (N.eqb_spec c1 quot) as [->|?]; [|
  destruct (N.eqb_spec c1 apos) as [->|?]]]]];
  (destruct (N.eqb_spec c2 amp) as [->|?]; [|
   destruct (N.eqb_spec c2 lt) as [->|?]; [|
   destruct (N.eqb_spec c2 gt) as [->|?]; [|
   destruct (N.eqb_spec c2 quot) as [->|?]; [|
   destruct (N.eqb_spec c2 apos) as [->|?]]]]]);
  cbn; intros H; simplify_eq; done.
Qed.

Lemma escape_not_nil c : escape c ≠ [].
Proof.
  destruct (special c) eqn:Hs.
  - destruct (escape_special c Hs) as (t & -> & _). done.
  - by rewrite escape_plain.
Qed.

(** X1.  [sanitize] loses nothing: two texts with the same escaped form are
    the same text. *)
Theorem X1_sanitize_injective (s1 s2 : jsstring) :
  sanitize s1 = sanitize s2 → s1 = s2.
Proof.
  rewrite !sanitize_escape. revert s2.
  induction s1 as [|c1 s1 IH]; intros [|c2 s2]; csimpl; try done.
  - intros H. symmetry in H. apply app_eq_nil in H as [H _].
    by apply escape_not_nil in H.
  - intros H. apply app_eq_nil in H as [H _]. by apply escape_not_nil in H.
  - intros [-> H]%escape_prefix_free. f_equal. by apply IH.
Qed.

Lemma X1_sanitize_injective_witness :
  sanitize (str "a<b") = sanitize ([97; 60; 98]%N) ∧ str "a<b" = [97; 60; 98]%N.
Proof.
  split; [reflexivity|].
  apply (X1_sanitize_injective (str "a<b") [97; 60; 98]%N). reflexivity.
Defined.

Lemma sanitize_plain s :
  Forall (λ c, special c = false) s → sanitize s = s.
Proof.
  intros Hs. rewrite sanitize_escape.
  induction Hs as [|c s Hc _ IH]; csimpl; [done|].
  by rewrite escape_plain, IH.
Qed.

Lemma sanitize_special_amp s c :
  c ∈ s → special c = true → amp ∈ sanitize s.
Proof.
  intros Hc Hs. rewrite sanitize_escape. apply list_elem_of_bind.
  exists c. split; [|done].
  destruct (escape_special c Hs) as (t & -> & _). left.
Qed.

Lemma sanitize_changes s c :
  c ∈ s → special c = true → sanitize s ≠ s.
Proof.
  intros Hc Hs Heq.
  assert (length (sanitize s) = length s) as Hlen by by rewrite Heq.
  clear Heq. revert Hlen. rewrite sanitize_escape.
  assert (∀ u, length u ≤ length (u ≫= escape)) as Hle.
  { induction u as [|x u IHu]; csimpl; [done|].
    rewrite length_app. destruct (special x) eqn:Hx.
    - destruct (escape_special x Hx) as (w & -> & ?). simpl. lia.
    - rewrite escape_plain by done. simpl. lia. }
  induction s as [|x s IHs]; [by apply elem_of_nil in Hc|].
  csimpl. rewrite length_app. pose proof (Hle s).
  apply elem_of_cons in Hc as [->|Hc].
  - destruct (escape_special x Hs) as (w & -> & ?). simpl. lia.
  - specialize (IHs Hc). destruct (special x) eqn:Hx.
    + destruct (escape_special x Hx) as (w & -> & ?). simpl. lia.
    + rewrite escape_plain by done. simpl. intros ?. apply IHs. lia.
Qed.

(** X2.  [sanitize] leaves a text as it is exactly when none of the five
    characters occurs in it; and since an escaped text holds an ampersand
    as soon as anything was replaced, a second pass changes it again:
    escaping twice gives the result of escaping once for those texts
    only. *)
Theorem X2_sanitize_fixed_points (s : jsstring) :
  (sanitize s = s ↔ Forall (λ c, special c = false) s) ∧
  (sanitize (sanitize s) = sanitize s ↔ Forall (λ c, special c = false) s).
Proof.
  split; split.
  - intros Heq. apply Forall_forall. intros c Hc.
    destruct (special c) eqn:Hs; [|done].
    by destruct (sanitize_changes s c Hc Hs).
  - apply sanitize_plain.
  - intros Heq. apply Forall_forall. intros c Hc.
    destruct (special c) eqn:Hs; [|done].
    destruct (sanitize_changes (sanitize s) amp); [|done..].
    by apply (sanitize_special_amp s c).
  - intros Hs. rewrite (sanitize_plain s Hs). by apply sanitize_plain.
Qed.

Lemma escape_length c :
  length (escape c) =
    1 + (if (c =? amp)%N then 4 else 0) + (if (c =? lt)%N then 3 else 0)
      + (if (c =? gt)%N then 3 else 0) + (if (c =? quot)%N then 5 else 0)
      + (if (c =? apos)%N then 4 else 0).
Proof.
  unfold escape.
  destruct (N.eqb_spec c amp) as [->|?]; [reflexivity|].
  destruct (N.eqb_spec c lt) as [->|?]; [reflexivity|].
  destruct (N.eqb_spec c gt) as [->|?]; [reflexivity|].
  destruct (N.eqb_spec c quot) as [->|?]; [reflexivity|].
  destruct (N.eqb_spec c apos) as [->|?]; reflexivity.
Qed.

(** X3.  [sanitize] works character by character: the escaped form of a
    concatenation is the concatenation of the escaped forms, and its length
    is the length of the text plus 4 for every ampersand, 3 for every [<]
    and [>], 5 for every double quote and 4 for every apostrophe; it is
    never shorter than the text and never longer than six times the
    text. *)
Theorem X3_sanitize_length (s1 s2 : jsstring) :
  sanitize (s1 ++ s2) = sanitize s1 ++ sanitize s2 ∧
  length (sanitize s1)
  = length s1 + 4 * occurrences amp s1 + 3 * occurrences lt s1
    + 3 * occurrences gt s1 + 5 * occurrences quot s1
    + 4 * occurrences apos s1 ∧
  length s1 ≤ length (sanitize s1) ≤ 6 * length s1.
Proof.
  split; [apply sanitize_app|].
  assert (length (sanitize s1)
          = length s1 + 4 * occurrences amp s1 + 3 * occurrences lt s1
            + 3 * occurrences gt s1 + 5 * occurrences quot s1
            + 4 * occurrences apos s1 ∧
          length (sanitize s1) ≤ 6 * length s1) as [Heq Hle]; [|lia].
  rewrite sanitize_escape.
  induction s1 as [|c s IH]; [simpl; lia|].
  change ((c :: s) ≫= escape) with (escape c ++ (s ≫= escape)).
  rewrite length_app, escape_length. cbn [occurrences length].
  destruct IH as [IH1 IH2].
  destruct (N.eqb_spec c amp) as [->|?]; [simpl in *; lia|].
  destruct (N.eqb_spec c lt) as [->|?]; [simpl in *; lia|].
  destruct (N.eqb_spec c gt) as [->|?]; [simpl in *; lia|].
  destruct (N.eqb_spec c quot) as [->|?]; [simpl in *; lia|].
  destruct (N.eqb_spec c apos) as [->|?]; [simpl in *; lia|].
  lia.
Qed.

(** ** The table over a run *)

Lemma trim_start_id s :
  (∀ c, head s = Some c → is_space c = false) → trim_start s = s.
Proof. destruct s as [|c s]; [done|]. intros H. simpl. by rewrite (H c). Qed.

Lemma trim_fixed s :
  (∀ c, head s = Some c → is_space c = false) →
  (∀ c, last s = Some c → is_space c = false) →
  trim s = s.
Proof.
  intros Hhead Hlast. unfold trim. rewrite (trim_start_id _ Hhead).
  unfold trim_end.
  rewrite trim_start_id; [by rewrite reverse_involutive|].
  intros c. rewrite head_reverse. apply Hlast.
Qed.

Lemma trim_idem s : trim (trim s) = trim s.
Proof.
  destruct (trim_spec s) as (_ & _ & _ & _ & _ & Hhead & Hlast).
  by apply trim_fixed.
Qed.

(** Storing a text leaves its white space where it was. *)
Lemma kept_space c c' : kept c c' → is_space c' = is_space c.
Proof.
  intros [->|[Hs ->]]; [done|].
  unfold is_surrogate, is_high_surrogate, is_low_surrogate in Hs.
  rewrite orb_true_iff, !andb_true_iff, !N.leb_le in Hs.
  assert (is_space c = false) as ->; [|reflexivity].
  apply not_true_is_false. unfold is_space.
  rewrite !orb_true_iff, !andb_true_iff, !N.eqb_eq, !N.leb_le. lia.
Qed.

Lemma Forall2_head {A B} (P : A → B → Prop) l k y :
  Forall2 P l k → head k = Some y → ∃ x, head l = Some x ∧ P x y.
Proof. intros [|????]; [done|]. intros [= <-]. eauto. Qed.

Lemma Forall2_last {A B} (P : A → B → Prop) l k y :
  Forall2 P l k → last k = Some y → ∃ x, last l = Some x ∧ P x y.
Proof.
  intros H. rewrite !last_lookup, <- (Forall2_length _ _ _ H). intros Hy.
  destruct (Forall2_lookup_r _ _ _ _ _ H Hy) as (x & ? & ?). eauto.
Qed.

Lemma kept_non_space l k :
  Forall2 kept l k →
  Forall (λ c, is_space c = false) l → Forall (λ c, is_space c = false) k.
Proof.
  induction 1 as [|c c' l k Hc _ IH]; [done|].
  intros [Hs Hl]%Forall_cons. constructor; [|by apply IH].
  by rewrite (kept_space _ _ Hc).
Qed.

Lemma stored_text_trim t : trim t = t → trim (stored_text t) = stored_text t.
Proof.
  intros Ht.
  destruct (trim_spec t) as (_ & _ & _ & _ & _ & Hhead & Hlast).
  rewrite Ht in Hhead, Hlast. apply trim_fixed; intros c' Hc'.
  - destruct (Forall2_head _ _ _ _ (stored_text_kept t) Hc') as (c & Hc & Hk).
    rewrite (kept_space _ _ Hk). by apply Hhead.
  - destruct (Forall2_last _ _ _ _ (stored_text_kept t) Hc') as (c & Hc & Hk).
    rewrite (kept_space _ _ Hk). by apply Hlast.
Qed.

Lemma kept_plain c c' : is_surrogate c = false → kept c c' → c' = c.
Proof. intros Hc [->|[Hs _]]; [done|congruence]. Qed.

Lemma email_shape_stored m : email_shape m → email_shape (stored_text m).
Proof.
  intros (a & b & c & -> & Ha & Hb & Hc & Hall).
  pose proof (stored_text_kept (a ++ [64%N] ++ b ++ [46%N] ++ c)) as Hk.
  apply Forall2_app_inv_l in Hk as (a' & r1 & Ha' & Hk & ->).
  apply Forall2_app_inv_l in Hk as (x & r2 & Hx & Hk & ->).
  apply Forall2_app_inv_l in Hk as (b' & r3 & Hb' & Hk & ->).
  apply Forall2_app_inv_l in Hk as (y & c' & Hy & Hc' & ->).
  apply Forall2_cons_inv_l in Hx as (x1 & x' & Hx1 & ->%Forall2_nil_inv_l & ->).
  apply Forall2_cons_inv_l in Hy as (y1 & y' & Hy1 & ->%Forall2_nil_inv_l & ->).
  apply kept_plain in Hx1 as ->; [|reflexivity].
  apply kept_plain in Hy1 as ->; [|reflexivity].
  exists a', b', c'. split; [done|].
  apply Forall_app in Hall as [Hsa Hall].
  apply Forall_app in Hall as [Hsb Hsc].
  split; [intros ->; by apply Forall2_nil_inv_r in Ha'|].
  split; [intros ->; by apply Forall2_nil_inv_r in Hb'|].
  split; [intros ->; by apply Forall2_nil_inv_r in Hc'|].
  rewrite !Forall_app.
  split; [|split]; eapply kept_non_space; eassumption.
Qed.

(** The row an insertion adds is within the bounds the handler checked. *)
Lemma new_row_ok d timestamp n m t date :
  length n ≤ 100 → length m ≤ 150 → m = [] ∨ email_shape m →
  5 ≤ length t ≤ 2000 → trim t = t →
  stored_ok (new_row d timestamp n m t date).
Proof.
  intros Hn Hm Hmail Ht Htrim. exists (stored_text n), (stored_text m).
  cbn [new_row r_name r_email r_message]. rewrite !stored_text_length.
  split; [done|]. split; [done|]. split; [done|]. split; [done|].
  split; [|split; [done|by apply stored_text_trim]].
  destruct Hmail as [->|?]; [by left|right]. by apply email_shape_stored.
Qed.

Lemma largest_id_snoc l r :
  largest_id (l ++ [r]) = Z.max (largest_id l) (Z.max (r_id r) 0).
Proof.
  unfold largest_id. induction l as [|x l IH]; simpl; [lia|].
  rewrite IH. lia.
Qed.

Lemma largest_id_ge l r : r ∈ l → (r_id r ≤ largest_id l)%Z.
Proof.
  unfold largest_id. induction 1 as [r l|r x l _ IH]; simpl; lia.
Qed.

(** What one request does to the table: a 201 adds one row, with the next
    id; any other answer leaves rows and counter as they were. *)
Lemma app_table e st req :
  let st' := (app e st req).1 in
  let r := (app e st req).2 in
  (status r = 201%Z ∧
   ∃ name email message,
     rows (db st') = rows (db st) ++
                     [new_row (db st) (current_timestamp e) name email
                        message (date_now e)] ∧
     sequence (db st') = (high_water (db st) + 1)%Z ∧
     (high_water (db st) + 1 ≤ 2 ^ 63 - 1)%Z ∧
     length name ≤ 100 ∧ length email ≤ 150 ∧
     (email = [] ∨ email_shape email) ∧
     5 ≤ length message ≤ 2000 ∧ trim message = message ∧
     response_views r
     = [item_view (js_number (high_water (db st) + 1)) name message
          (date_now e)]) ∨
  (status r ≠ 201%Z ∧ rows (db st') = rows (db st) ∧
   sequence (db st') = sequence (db st)).
Proof.
  cbn zeta.
  destruct (decide (status (app e st req).2 = 201%Z)) as [Hs|Hs].
  { left. split; [done|].
    destruct (app_created e st req Hs)
      as (b & n & m & t & _ & _ & _ & _ & _ & Hlen & Hmail & Hroom & -> & ->).
    eexists _, _, _. cbn [rows sequence].
    split; [reflexivity|]. split; [reflexivity|]. split; [done|].
    split; [unfold slice0; rewrite length_take; lia|].
    split; [unfold slice0; rewrite length_take; lia|].
    split; [done|]. split; [done|]. split; [apply trim_idem|].
    apply response_views_item. }
  right. split; [done|]. revert Hs.
  unfold app. destruct (req_body req) as [err|b]; [done|].
  destruct (req_route req); try done.
  - unfold settle.
    destruct (get_comments _ _ _) as [[d' res]|] eqn:Hg; [|done].
    apply get_comments_inv in Hg as (ln & on & _ & _ & -> & _). done.
  - destruct (RateLimit.hit _ _ _ _) as [c pass]. destruct pass; [|done].
    rewrite post_comments_read.
    destruct (field_text b "name") as [n|]; [|done].
    destruct (field_text b "email") as [m|]; [|done].
    destruct (field_text b "message") as [t|]; [|done].
    unfold settle.
    destruct (create_comment_case (storage_ok e) (current_timestamp e)
      (date_now e) (db st) (slice0 100 (trim n)) (slice0 150 (trim m))
      (trim t)) as [?|?|? ? Hno|d' id Hlen Hmail ? Hrun|d' ? ? ? Hrun];
      cbn [fst snd db]; try done.
    apply run_failed in Hrun as (_ & ->). done.
Qed.

Lemma created_id_item r id name message date :
  status r = 201%Z →
  response_views r = [item_view id name message date] →
  created_id r = Some id.
Proof. unfold created_id. by intros -> ->. Qed.

Lemma created_id_other r : status r ≠ 201%Z → created_id r = None.
Proof.
  unfold created_id. intros H.
  by destruct (Z.eqb_spec (status r) 201).
Qed.

Lemma high_water_nonneg d : (0 ≤ largest_id (rows d))%Z.
Proof. unfold largest_id. induction (rows d); simpl; lia. Qed.

(** Below 2^53 a number is the integer it came from. *)
Lemma js_number_exact z : (Z.abs z < 2 ^ 53)%Z → js_number z = z.
Proof.
  intros Hz. unfold js_number, to_double. cbv zeta.
  by rewrite (proj2 (Z.ltb_lt _ _) Hz).
Qed.

(** The step of every induction over a run. *)
Lemma app_high_water e st req :
  let st' := (app e st req).1 in
  let r := (app e st req).2 in
  match created_id r with
  | Some id => id = js_number (high_water (db st) + 1) ∧
               high_water (db st') = (high_water (db st) + 1)%Z
  | None => high_water (db st') = high_water (db st)
  end.
Proof.
  cbn zeta.
  destruct (app_table e st req)
    as [(Hs & n & m & t & Hrows & Hseq & _ & _ & _ & _ & _ & _ & Hv)
       |(Hs & Hrows & Hseq)].
  - rewrite (created_id_item _ _ _ _ _ Hs Hv). split; [done|].
    unfold high_water at 1. rewrite Hrows, Hseq, largest_id_snoc.
    cbn [new_row r_id].
    pose proof (high_water_nonneg (db st)). unfold high_water. lia.
  - rewrite (created_id_other _ Hs). unfold high_water. by rewrite Hrows, Hseq.
Qed.

Lemma run_app_ids l : ∀ st,
  (high_water (db st) + Z.of_nat (length l) < 2 ^ 53)%Z →
  let ids := omap created_id (run_app st l).2 in
  StronglySorted Z.lt ids ∧
  Forall (λ i, (high_water (db st) < i)%Z) ids ∧
  (high_water (db st) ≤ high_water (db (run_app st l).1))%Z.
Proof.
  induction l as [|[e req] l IH]; intros st Hbound; cbn [run_app].
  { cbn. split; [constructor|]. split; [constructor|lia]. }
  pose proof (app_high_water e st req) as Hstep. cbn zeta in Hstep.
  assert (0 ≤ high_water (db st))%Z as Hpos.
  { pose proof (high_water_nonneg (db st)). unfold high_water. lia. }
  rewrite length_cons in Hbound.
  destruct (app e st req) as [st1 r]. cbn [fst snd] in Hstep.
  specialize (IH st1). cbn zeta in IH.
  destruct (run_app st1 l) as [st2 rs]. cbn [fst snd] in *.
  cbn [omap list_omap].
  destruct (created_id r) as [id|].
  - destruct Hstep as [-> Hst1]. rewrite js_number_exact by lia.
    destruct IH as (Hsorted & Hall & Hle); [lia|].
    rewrite Hst1 in Hall, Hle.
    split; [|split; [|lia]].
    + by constructor.
    + constructor; [lia|]. eapply Forall_impl; [exact Hall|]. cbn. lia.
  - rewrite Hstep in IH. destruct IH as (Hsorted & Hall & Hle); [lia|]. done.
Qed.

(** X4.  The ids the program gives out only grow.  An id reaches the
    response as a number, which is exact below 2^53: over a run that stays
    below it, from any table, the ids announced by the 201 responses are in
    strictly increasing order, each larger than every id the table had seen
    before the run.  The bound is where numbers stop being exact: 2^53 + 1
    reaches the response as 2^53. *)
Theorem X4_ids_strictly_increase (st : state)
    (l : list (environment * request)) :
  (high_water (db st) + Z.of_nat (length l) < 2 ^ 53)%Z →
  let ids := omap created_id (run_app st l).2 in
  StronglySorted Z.lt ids ∧
  Forall (λ i, (sequence (db st) < i)%Z ∧
               Forall (λ row, (r_id row < i)%Z) (rows (db st))) ids ∧
  (∀ z, (Z.abs z < 2 ^ 53)%Z → js_number z = z) ∧
  js_number (2 ^ 53 + 1) = (2 ^ 53)%Z.
Proof.
  intros Hbound.
  destruct (run_app_ids l st Hbound) as (Hs & Hall & _). cbn zeta.
  split; [done|]. split; [|split; [apply js_number_exact|reflexivity]].
  eapply Forall_impl; [exact Hall|]. intros i Hi. unfold high_water in Hi.
  split; [lia|]. apply Forall_forall. intros row Hrow.
  pose proof (largest_id_ge _ _ Hrow). lia.
Qed.

Lemma X4_ids_strictly_increase_witness :
  let st := {| db := three_rows; dbReady := true;
               limiter := RateLimit.fresh |} in
  let l := [(noon, create_request "Ana" "" "Hola a todos");
            (noon, create_request "Luz" "" "Hola");
            (noon, create_request "Eva" "" "Buenas tardes")] in
  (high_water (db st) + Z.of_nat (length l) < 2 ^ 53)%Z ∧
  omap created_id (run_app st l).2 = [4; 5]%Z ∧
  StronglySorted Z.lt (omap created_id (run_app st l).2).
Proof.
  cbn zeta. split; [vm_compute; reflexivity|].
  split; [vm_compute; reflexivity|].
  apply X4_ids_strictly_increase. vm_compute. reflexivity.
Defined.

(** The number a response announces need not be the id of the row: from a
    table that has seen the id 2^53, the row gets 2^53 + 1 and the response
    says 2^53. *)
Example id_beyond_exact_numbers :
  let st := {| db := {| rows := []; sequence := 2 ^ 53; journal := [] |};
               dbReady := true; limiter := RateLimit.fresh |} in
  let a := app noon st (create_request "Ana" "" "Hola a todos") in
  r_id <$> rows (db a.1) = [2 ^ 53 + 1]%Z ∧
  created_id a.2 = Some (2 ^ 53)%Z.
Proof. vm_compute. done. Qed.

(** The table takes no row once the largest id has been given. *)
Example table_full :
  let st := {| db := {| rows := []; sequence := 2 ^ 63 - 1; journal := [] |};
               dbReady := true; limiter := RateLimit.fresh |} in
  let a := app noon st (create_request "Ana" "" "Hola a todos") in
  a.2 = res_json 500 (failure "DB_ERROR") ∧ rows (db a.1) = [].
Proof. vm_compute. done. Qed.

(** X5.  The table is only ever appended to: over any run the rows it had
    are still there, unchanged and in the same places, and it has grown by
    one row for each 201 response and by nothing else. *)
Theorem X5_table_append_only (st : state) (l : list (environment * request)) :
  rows (db st) `prefix_of` rows (db (run_app st l).1) ∧
  length (rows (db (run_app st l).1))
  = length (rows (db st))
    + length (filter (λ r, status r = 201%Z) (run_app st l).2).
Proof.
  revert st. induction l as [|[e req] l IH]; intros st; cbn [run_app].
  { cbn. split; [done|lia]. }
  pose proof (app_table e st req) as Hstep. cbn zeta in Hstep.
  destruct (app e st req) as [st1 r]. cbn [fst snd] in Hstep.
  specialize (IH st1).
  destruct (run_app st1 l) as [st2 rs]. cbn [fst snd] in *.
  destruct IH as (Hpre & Hlen). rewrite filter_cons.
  destruct Hstep as [(Hs & n & m & t & Hrows & _)|(Hs & Hrows & _)].
  - rewrite decide_True by done. rewrite Hrows in Hpre, Hlen.
    split; [by eapply prefix_app_l|].
    rewrite length_app in Hlen. simpl in *. lia.
  - rewrite decide_False by done. by rewrite Hrows in Hpre, Hlen.
Qed.

Lemma run_app_invariant (P : database → Prop) :
  (∀ e st req, P (db st) → P (db (app e st req).1)) →
  ∀ l st, P (db st) → P (db (run_app st l).1).
Proof.
  intros Hstep. induction l as [|[e req] l IH]; intros st HP; cbn [run_app].
  { done. }
  specialize (Hstep e st req HP).
  destruct (app e st req) as [st1 r]. specialize (IH st1 Hstep).
  by destruct (run_app st1 l) as [st2 rs].
Qed.

(** X6.  Every row the program writes is within the bounds of the create
    handler.  Over any run, from any table, the rows the run has added, one
    for each 201 response, all have a name of at most 100 characters, an
    email of at most 150 that is empty or of the accepted shape, and a
    message of 5 to 2000 characters with no white space at its ends. *)
Theorem X6_rows_within_bounds (st : state)
    (l : list (environment * request)) :
  ∃ new,
    rows (db (run_app st l).1) = rows (db st) ++ new ∧
    length new = length (filter (λ r, status r = 201%Z) (run_app st l).2) ∧
    Forall stored_ok new.
Proof.
  revert st. induction l as [|[e req] l IH]; intros st; cbn [run_app].
  { exists []. cbn. by rewrite app_nil_r. }
  pose proof (app_table e st req) as Hstep. cbn zeta in Hstep.
  destruct (app e st req) as [st1 r]. cbn [fst snd] in Hstep.
  destruct (IH st1) as (new & Hrows & Hlen & Hok).
  destruct (run_app st1 l) as [st2 rs]. cbn [fst snd] in *.
  rewrite filter_cons.
  destruct Hstep as [(Hs & n & m & t & Hst1 & _ & _ & Hn & Hm & Hmail & Ht
                      & Htrim & _)|(Hs & Hst1 & _)].
  - rewrite decide_True by done.
    exists (new_row (db st) (current_timestamp e) n m t (date_now e) :: new).
    rewrite Hrows, Hst1, <- assoc_L by apply _.
    split; [done|]. split; [simpl; by rewrite Hlen|].
    constructor; [by apply new_row_ok|done].
  - rewrite decide_False by done. exists new. by rewrite Hrows, Hst1.
Qed.

(** A run over a table whose rows are not within the bounds: the two rows
    it adds are. *)
Example rows_added_within_bounds :
  let st := {| db := three_rows; dbReady := true;
               limiter := RateLimit.fresh |} in
  let l := [(noon, create_request "  Ana  " "ana@example.com" " Hola a todos ");
            (noon, create_request long_name "" "Otro mensaje")] in
  (λ r, (length <$> r_name r, r_email r, r_message r))
    <$> drop 3 (rows (db (run_app st l).1))
  = [(Some 3, Some (str "ana@example.com"), str "Hola a todos");
     (Some 100, Some [], str "Otro mensaje")].
Proof. vm_compute. reflexivity. Qed.

(** X7.  Ids are never given twice: a table whose rows have distinct ids
    keeps distinct ids over any run. *)
Theorem X7_ids_stay_distinct (st : state) (l : list (environment * request)) :
  NoDup (r_id <$> rows (db st)) →
  NoDup (r_id <$> rows (db (run_app st l).1)).
Proof.
  apply (run_app_invariant (λ d, NoDup (r_id <$> rows d))).
  clear. intros e st req HP.
  destruct (app_table e st req)
    as [(_ & n & m & t & -> & _)|(_ & -> & _)]; [|done].
  rewrite fmap_app. apply NoDup_app. split; [done|]. split.
  - intros i (r & -> & Hr)%list_elem_of_fmap Hin.
    apply list_elem_of_singleton in Hin. cbn [new_row r_id] in Hin.
    pose proof (largest_id_ge _ _ Hr). unfold high_water in Hin. lia.
  - apply NoDup_singleton.
Qed.

Lemma X7_ids_stay_distinct_witness :
  let st := {| db := three_rows; dbReady := true;
               limiter := RateLimit.fresh |} in
  let l := [(noon, create_request "Ana" "" "Hola a todos")] in
  NoDup (r_id <$> rows (db st)) ∧
  r_id <$> rows (db (run_app st l).1) = [1; 2; 3; 4]%Z ∧
  NoDup (r_id <$> rows (db (run_app st l).1)).
Proof.
  assert (NoDup (r_id <$> rows three_rows)) as H.
  { apply (bool_decide_unpack _). vm_compute. exact I. }
  cbn zeta. split; [exact H|]. split; [vm_compute; reflexivity|].
  apply X7_ids_stay_distinct. exact H.
Defined.

(** X16.  Ids are 64-bit integers, and the table gives none twice: once it
    has seen the largest of them it takes no row any more.  Over any run
    from such a table no request is answered 201, and the rows stay as they
    were; a create request that passes the checks is answered 500
    DB_ERROR. *)
Theorem X16_full_table_takes_no_row (st : state)
    (l : list (environment * request)) :
  (2 ^ 63 - 1 ≤ high_water (db st))%Z →
  rows (db (run_app st l).1) = rows (db st) ∧
  Forall (λ r, status r ≠ 201%Z) (run_app st l).2 ∧
  (∀ ok timestamp date name email message,
     5 ≤ length message ≤ 2000 → email = [] ∨ email_shape email →
     create_comment ok timestamp date (db st) name email message
     = ({| rows := rows (db st); sequence := sequence (db st);
           journal := journal (db st) ++
                      [InsertComment name email message date] |},
        res_json 500 (failure "DB_ERROR"))).
Proof.
  intros Hfull. split; [|split].
  - revert st Hfull.
    induction l as [|[e req] l IH]; intros st Hfull; cbn [run_app]; [done|].
    pose proof (app_table e st req) as Hstep. cbn zeta in Hstep.
    destruct (app e st req) as [st1 r]. cbn [fst snd] in Hstep.
    destruct Hstep as [(_ & n & m & t & _ & _ & Hroom & _)|(_ & Hrows & Hseq)];
      [lia|].
    specialize (IH st1). destruct (run_app st1 l) as [st2 rs].
    cbn [fst] in *. rewrite IH; [done|].
    unfold high_water in *. by rewrite Hrows, Hseq.
  - revert st Hfull.
    induction l as [|[e req] l IH]; intros st Hfull; cbn [run_app].
    { constructor. }
    pose proof (app_table e st req) as Hstep. cbn zeta in Hstep.
    destruct (app e st req) as [st1 r]. cbn [fst snd] in Hstep.
    destruct Hstep as [(_ & n & m & t & _ & _ & Hroom & _)|(Hs & Hrows & Hseq)];
      [lia|].
    specialize (IH st1). destruct (run_app st1 l) as [st2 rs].
    cbn [snd] in *. constructor; [done|]. apply IH.
    unfold high_water in *. by rewrite Hrows, Hseq.
  - intros ok timestamp date name email message Hlen Hmail.
    destruct (create_comment_case ok timestamp date (db st) name email message)
      as [?|?|? ? Hno|d' id ? ? ? Hrun|d' ? ? ? Hrun]; [lia|lia|..].
    + by destruct Hmail.
    + apply run_stored in Hrun as (_ & Hroom & _). lia.
    + by apply run_failed in Hrun as (_ & ->).
Qed.

Lemma X16_full_table_takes_no_row_witness :
  let st := {| db := {| rows := []; sequence := 2 ^ 63 - 1; journal := [] |};
               dbReady := true; limiter := RateLimit.fresh |} in
  let l := [(noon, create_request "Ana" "" "Hola a todos");
            (noon, list_request [])] in
  (2 ^ 63 - 1 ≤ high_water (db st))%Z ∧
  status <$> (run_app st l).2 = [500; 200]%Z ∧
  rows (db (run_app st l).1) = rows (db st) ∧
  Forall (λ r, status r ≠ 201%Z) (run_app st l).2.
Proof.
  cbn zeta.
  assert (2 ^ 63 - 1 ≤ high_water
            {| rows := []; sequence := 2 ^ 63 - 1; journal := [] |})%Z as H
    by (vm_compute; discriminate).
  split; [exact H|]. split; [vm_compute; reflexivity|].
  destruct (X16_full_table_takes_no_row
    {| db := {| rows := []; sequence := 2 ^ 63 - 1; journal := [] |};
       dbReady := true; limiter := RateLimit.fresh |}
    [(noon, create_request "Ana" "" "Hola a todos"); (noon, list_request [])]
    H) as (Hrows & Hall & _).
  split; [exact Hrows|exact Hall].
Defined.

(** ** Listings *)

(** The listing in the other direction: with the engine at work and an
    offset SQLite can take, the handler answers 200 with the page. *)
Lemma get_comments_ok d q (l o : Z) :
  list_limit q = Some (Fin l) → list_offset q = Some (Fin o) →
  (o < 2 ^ 63)%Z →
  get_comments true d q
  = Some ({| rows := rows d; sequence := sequence d;
             journal := journal d ++ [SelectComments (Fin l) (Fin o)] |},
          res_json 200
            (JObj [(str "ok", JBool true);
                   (str "items",
                    JArr (list_view <$>
                            take (Z.to_nat l)
                              (drop (Z.to_nat o)
                                 (order_by_created_at_desc_id_desc (rows d)))));
                   (str "limit", JNum l);
                   (str "offset", JNum o)])).
Proof.
  intros Hl Ho Hlt. unfold get_comments. rewrite Hl, Ho.
  cbn [mbind option_bind]. unfold Sqlite.all.
  apply list_limit_inv in Hl as (l' & [= <-] & Hl).
  apply list_offset_inv in Ho as [?|(o' & [= <-] & Ho)]; [done|].
  assert (sql_integer (Fin l) = Some l) as ->.
  { unfold sql_integer.
    rewrite (proj2 (Z.leb_le _ _)), (proj2 (Z.ltb_lt _ _)); [done|lia..]. }
  assert (sql_integer (Fin o) = Some o) as ->.
  { unfold sql_integer.
    rewrite (proj2 (Z.leb_le _ _)), (proj2 (Z.ltb_lt _ _)); [done|lia..]. }
  cbn [mbind option_bind]. unfold sql_limit, sql_offset.
  by rewrite (proj2 (Z.ltb_ge _ _)) by lia.
Qed.

(** A row newer than all the others, by timestamp or else by id, heads the
    ordering. *)
Lemma order_by_newest l row :
  Forall (λ r, text_compare (r_created_at r) (r_created_at row) ≠ Gt ∧
               (r_id r < r_id row)%Z) l →
  ∃ rest, order_by_created_at_desc_id_desc (l ++ [row]) = row :: rest.
Proof.
  intros Hall.
  pose proof (order_by_sorted (l ++ [row])) as Hs.
  pose proof (order_by_permutation (l ++ [row])) as Hp.
  destruct (order_by_created_at_desc_id_desc (l ++ [row])) as [|h tl].
  { apply Permutation_nil_l in Hp. by destruct l. }
  assert (h ∈ l ++ [row]) as Hh by (rewrite <- Hp; left).
  assert (row ∈ h :: tl) as Hrow by (rewrite Hp; set_solver).
  apply elem_of_app in Hh as [Hh|Hh%list_elem_of_singleton];
    [|subst; eauto].
  exfalso. rewrite Forall_forall in Hall. destruct (Hall h Hh) as [Hc Hid].
  apply elem_of_cons in Hrow as [->|Hrow]; [lia|].
  apply StronglySorted_inv in Hs as [_ Hhd].
  rewrite Forall_forall in Hhd. specialize (Hhd row Hrow).
  apply newest_first_spec in Hhd as [Hlt|[_ Hle]]; [|lia].
  apply Hc. rewrite text_compare_antisym, Hlt. done.
Qed.

Lemma app_get e st req b :
  req_route req = GET_comments → req_body req = Parsed b →
  app e st req
  = settle st (get_comments (storage_ok e) (db st) (req_query req)).
Proof. intros Hr Hb. unfold app. by rewrite Hb, Hr. Qed.

(** X8.  A comment just created heads the next listing.  When the table
    holds no timestamp later than the one the new row gets, a listing from
    offset 0 that follows a 201 starts with that comment: it shows the id
    the create response showed, the timestamp of the insertion, and the
    name, message and date as the table keeps them, which are those of the
    create response except at unpaired surrogates; for texts that storing
    leaves as they are the two views agree on id, name, message and date. *)
Theorem X8_created_comment_listed_first (e e' : environment) (st : state)
    (req req' : request) (b : value) (limit : number) :
  let st1 := (app e st req).1 in
  let r := (app e st req).2 in
  status r = 201%Z →
  Forall (λ row, text_compare (r_created_at row) (current_timestamp e) ≠ Gt)
    (rows (db st)) →
  req_route req' = GET_comments → req_body req' = Parsed b →
  list_limit (req_query req') = Some limit →
  list_offset (req_query req') = Some (Fin 0) →
  storage_ok e' = true →
  ∃ id name message v rest,
    response_views r = [item_view id name message (date_now e)] ∧
    response_views (app e' st1 req').2 = v :: rest ∧
    view_member "id" v = Some (JNum id) ∧
    view_member "name" v
    = Some (JStr (or_Anonimo (Some (stored_text name)))) ∧
    view_member "message" v = Some (JStr (sanitize (stored_text message))) ∧
    view_member "date" v = Some (JStr (stored_text (date_now e))) ∧
    view_member "created_at" v = Some (JStr (current_timestamp e)) ∧
    (stored_text name = name → stored_text message = message →
     stored_text (date_now e) = date_now e →
     ∀ k, k ∈ ["id"; "name"; "message"; "date"]%string →
       view_member k v
       = view_member k (item_view id name message (date_now e))).
Proof.
  cbn zeta. intros Hs Hold Hroute Hbody Hlimit Hoffset Hok.
  destruct (app_table e st req)
    as [(_ & n & m & t & Hrows & _ & _ & _ & _ & _ & _ & _ & Hv)|(Hno & _)];
    [|done].
  set (row := new_row (db st) (current_timestamp e) n m t (date_now e)) in *.
  destruct (order_by_newest (rows (db st)) row) as [rest Hsorted].
  { apply Forall_forall. intros x Hx. rewrite Forall_forall in Hold.
    split; [by apply Hold|].
    pose proof (largest_id_ge _ _ Hx). subst row. cbn [new_row r_id].
    unfold high_water. lia. }
  pose proof Hlimit as (l & -> & Hl)%list_limit_inv.
  rewrite (app_get e' _ req' b Hroute Hbody), Hok.
  rewrite (get_comments_ok _ _ l 0 Hlimit Hoffset) by done.
  cbn [settle snd]. rewrite Hrows, Hsorted.
  change (Z.to_nat 0) with 0. cbn [drop].
  destruct (Z.to_nat l) as [|k] eqn:Hk; [lia|]. cbn [take].
  eexists _, n, t, (list_view row), (list_view <$> take k rest).
  split; [exact Hv|]. split; [reflexivity|].
  split; [reflexivity|]. split; [reflexivity|]. split; [reflexivity|].
  split; [reflexivity|]. split; [reflexivity|].
  intros Hn Ht Hd key Hkey. unfold list_view, row. cbn [new_row r_id r_name
    r_message r_date r_created_at]. rewrite Hn, Ht, Hd.
  repeat (apply elem_of_cons in Hkey as [->|Hkey]; [reflexivity|]).
  by apply elem_of_nil in Hkey.
Qed.

Lemma X8_created_comment_listed_first_witness :
  let st := {| db := three_rows; dbReady := true;
               limiter := RateLimit.fresh |} in
  let req := create_request "Ana" "" "Hola <todos>" in
  let st1 := (app spring st req).1 in
  let req' := list_request [("limit", "2")] in
  status (app spring st req).2 = 201%Z ∧
  ∃ id name message v rest,
    response_views (app spring st req).2
    = [item_view id name message (date_now spring)] ∧
    response_views (app spring st1 req').2 = v :: rest ∧
    view_member "id" v = Some (JNum id) ∧
    view_member "name" v
    = Some (JStr (or_Anonimo (Some (stored_text name)))) ∧
    view_member "message" v = Some (JStr (sanitize (stored_text message))) ∧
    view_member "date" v = Some (JStr (stored_text (date_now spring))) ∧
    view_member "created_at" v = Some (JStr (current_timestamp spring)) ∧
    (stored_text name = name → stored_text message = message →
     stored_text (date_now spring) = date_now spring →
     ∀ k, k ∈ ["id"; "name"; "message"; "date"]%string →
       view_member k v
       = view_member k (item_view id name message (date_now spring))).
Proof.
  cbn zeta. split; [vm_compute; reflexivity|].
  apply (X8_created_comment_listed_first spring spring
           {| db := three_rows; dbReady := true; limiter := RateLimit.fresh |}
           (create_request "Ana" "" "Hola <todos>")
           (list_request [("limit", "2")]) (VObj []) (Fin 2)).
  - vm_compute. reflexivity.
  - apply (bool_decide_unpack _). vm_compute. exact I.
  - reflexivity.
  - reflexivity.
  - vm_compute. reflexivity.
  - vm_compute. reflexivity.
  - reflexivity.
Defined.

(** A name cut in the middle of a surrogate pair: the create response shows
    the half that is left, the table and the listing U+FFFD in its
    place. *)
Example unpaired_surrogate_stored :
  let name := replicate 99 97%N ++ [55357; 56832]%N in
  let req :=
    {| req_route := POST_comments; req_scope := str "203.0.113.7";
       req_query := VObj [];
       req_body :=
         Parsed (VObj [(str "name", VStr name);
                       (str "message", VStr (str "Hola a todos"))]) |} in
  let a := app spring start req in
  let listing := app spring a.1 (list_request []) in
  (λ v, view_member "name" v) <$> response_views a.2
  = [Some (JStr (replicate 99 97%N ++ [55357%N]))] ∧
  r_name <$> rows (db a.1) = [Some (replicate 99 97%N ++ [65533%N])] ∧
  (λ v, view_member "name" v) <$> response_views listing.2
  = [Some (JStr (replicate 99 97%N ++ [65533%N]))].
Proof. vm_compute. done. Qed.

(** X9.  Pages tile the listing.  Asking for the pages of one size one
    after the other, at the offsets 0, the size, twice the size and so on,
    over a table whose rows do not change meanwhile, returns the start of
    the ordered table piece by piece: nothing is skipped and nothing comes
    twice, and once the offsets have passed the number of rows every comment
    has been shown exactly once. *)
Theorem X9_pages_tile (d : database) (ds : nat → database) (q : nat → value)
    (size n : nat) :
  (∀ k, k < n → rows (ds k) = rows d ∧
                list_limit (q k) = Some (Fin (Z.of_nat size)) ∧
                list_offset (q k) = Some (Fin (Z.of_nat (k * size)))) →
  (Z.of_nat (n * size) < 2 ^ 63)%Z →
  let shown := k ← seq 0 n; page_views (get_comments true (ds k) (q k)) in
  shown = list_view <$> take (n * size)
                          (order_by_created_at_desc_id_desc (rows d)) ∧
  (length (rows d) ≤ n * size → shown ≡ₚ list_view <$> rows d).
Proof.
  intros Hq Hbound. cbn zeta.
  assert ((k ← seq 0 n; page_views (get_comments true (ds k) (q k)))
          = list_view <$> take (n * size)
                            (order_by_created_at_desc_id_desc (rows d)))
    as Heq.
  { induction n as [|n IH]; [done|].
    rewrite seq_S, bind_app, IH; [|intros k Hk; apply Hq; lia|lia].
    cbn [mbind list_bind app plus]. rewrite app_nil_r.
    destruct (Hq n) as (Hrows & Hl & Ho); [lia|].
    rewrite (get_comments_ok _ _ _ _ Hl Ho) by lia.
    unfold page_views. cbn [from_option snd]. rewrite Hrows.
    change (response_views _) with
      (list_view <$> take (Z.to_nat (Z.of_nat size))
         (drop (Z.to_nat (Z.of_nat (n * size)))
            (order_by_created_at_desc_id_desc (rows d)))).
    rewrite !Nat2Z.id, <- fmap_app, take_take_drop.
    do 2 f_equal. lia. }
  split; [exact Heq|]. intros Hlen. rewrite Heq.
  rewrite take_ge by (rewrite order_by_permutation; lia).
  by rewrite order_by_permutation.
Qed.

Lemma X9_pages_tile_witness :
  let q k := req_query (list_request
               [("limit", "2");
                ("offset", match k with 0 => "0" | _ => "2" end)]) in
  let shown :=
    k ← seq 0 2; page_views (get_comments true three_rows (q k)) in
  (λ v, view_member "id" v) <$> shown
  = [Some (JNum 3); Some (JNum 2); Some (JNum 1)] ∧
  shown ≡ₚ list_view <$> rows three_rows.
Proof.
  cbn zeta.
  destruct (X9_pages_tile three_rows (λ _, three_rows)
    (λ k, req_query (list_request
            [("limit", "2");
             ("offset", match k with 0 => "0" | _ => "2" end)]))
    2 2) as [Heq Hperm].
  - intros [|[|k]] Hk; [| |lia]; (split; [reflexivity|]);
      split; vm_compute; reflexivity.
  - vm_compute. reflexivity.
  - split; [|apply Hperm; vm_compute; lia].
    vm_compute. reflexivity.
Defined.

(** ** Responses, statements and errors *)

Lemma NoDup_fmap_eq {A B} (f : A → B) (l : list A) x y :
  NoDup (f <$> l) → x ∈ l → y ∈ l → f x = f y → x = y.
Proof.
  induction l as [|z l IH]; csimpl; [by intros _ ?%elem_of_nil|].
  intros [Hz Hnd]%NoDup_cons [->|Hx]%elem_of_cons [->|Hy]%elem_of_cons Hf;
    [done| | |by apply IH].
  - exfalso. apply Hz. rewrite Hf. by apply list_elem_of_fmap_2.
  - exfalso. apply Hz. rewrite <- Hf. by apply list_elem_of_fmap_2.
Qed.

(** X10.  The order of a listing is a matter of the rows alone, not of how
    the table happens to hold them: two tables with the same rows, whose ids
    are distinct, are listed the same for every query. *)
Theorem X10_listing_ignores_storage_order (ok : bool) (d d' : database)
    (q : value) :
  rows d ≡ₚ rows d' → NoDup (r_id <$> rows d) →
  order_by_created_at_desc_id_desc (rows d)
  = order_by_created_at_desc_id_desc (rows d') ∧
  snd <$> get_comments ok d q = snd <$> get_comments ok d' q.
Proof.
  intros Hp Hnd.
  assert (order_by_created_at_desc_id_desc (rows d)
          = order_by_created_at_desc_id_desc (rows d')) as Heq.
  { apply (StronglySorted_unique_strong newest_first);
      [|apply order_by_sorted..|by rewrite !order_by_permutation].
    intros x y Hx Hy Hxy Hyx.
    rewrite order_by_permutation in Hx. rewrite order_by_permutation, <- Hp in Hy.
    apply (NoDup_fmap_eq r_id (rows d)); [done..|].
    apply newest_first_spec in Hxy as [Hxy|[Hc Hxy]],
      Hyx as [Hyx|[Hc' Hyx]]; try lia.
    - rewrite text_compare_antisym, Hxy in Hyx. done.
    - rewrite Hc', (proj2 (text_compare_eq _ _)) in Hxy; done.
    - rewrite Hc, (proj2 (text_compare_eq _ _)) in Hyx; done. }
  split; [done|]. unfold get_comments, Sqlite.all.
  destruct (list_limit q) as [l|]; [|done].
  destruct (list_offset q) as [o|]; [|done]. cbn [mbind option_bind].
  rewrite Heq. by destruct ok.
Qed.

Lemma X10_listing_ignores_storage_order_witness :
  let d' := {| rows := reverse (rows three_rows); sequence := 7;
               journal := [] |} in
  rows three_rows ≡ₚ rows d' ∧
  order_by_created_at_desc_id_desc (rows three_rows)
  = order_by_created_at_desc_id_desc (rows d').
Proof.
  cbn zeta.
  assert (rows three_rows ≡ₚ reverse (rows three_rows)) as Hp
    by (symmetry; apply reverse_Permutation).
  split; [exact Hp|].
  refine (proj1 (X10_listing_ignores_storage_order true three_rows
    {| rows := reverse (rows three_rows); sequence := 7; journal := [] |}
    (VObj []) Hp _)).
  apply (bool_decide_unpack _). vm_compute. exact I.
Defined.

(** Closes a goal about a document written out: its [ok], its [error] and
    the status that goes with them. *)
Ltac ok_document :=
  eexists; split; [reflexivity|];
  first
    [ left; split; [reflexivity|]; split; [reflexivity|];
      rewrite !elem_of_cons; auto; fail
    | right; split; [reflexivity|]; split; [by eexists|];
      rewrite !elem_of_cons; auto; fail ].

(** X11.  Every document the program sends says whether the request
    succeeded: [ok] is true with status 200 or 201 and no [error] member,
    or [ok] is false with status 400 or 500 and an [error] code. *)
Theorem X11_ok_tells_success (e : environment) (st : state) (req : request)
    (j : json) :
  body (app e st req).2 = Some j →
  ∃ members, j = JObj members ∧
    ((member (str "ok") members = Some (JBool true) ∧
      member (str "error") members = None ∧
      status (app e st req).2 ∈ [200; 201]%Z) ∨
     (member (str "ok") members = Some (JBool false) ∧
      (∃ code, member (str "error") members = Some (JStr code)) ∧
      status (app e st req).2 ∈ [400; 500]%Z)).
Proof.
  unfold app. destruct (req_body req) as [err|b].
  { unfold error_middleware. case_match; intros [= <-]; ok_document. }
  destruct (req_route req); try done.
  - intros [= <-]. ok_document.
  - unfold settle.
    destruct (get_comments _ _ _) as [[d' res]|] eqn:Hg.
    + apply get_comments_inv in Hg
        as (ln & on & _ & _ & _ & [->|(l & o & _ & _ & _ & _ & _ & ->)]);
        intros [= <-]; ok_document.
    + intros [= <-]. ok_document.
  - destruct (RateLimit.hit _ _ _ _) as [c pass]. destruct pass; [|done].
    rewrite post_comments_read.
    destruct (field_text b "name") as [n|]; [|intros [= <-]; ok_document].
    destruct (field_text b "email") as [m|]; [|intros [= <-]; ok_document].
    destruct (field_text b "message") as [t|]; [|intros [= <-]; ok_document].
    unfold settle.
    destruct (create_comment_case (storage_ok e) (current_timestamp e)
      (date_now e) (db st) (slice0 100 (trim n)) (slice0 150 (trim m))
      (trim t)); intros [= <-]; ok_document.
Qed.

Lemma X11_ok_tells_success_witness :
  let r := (app noon start (create_request "" "" "Hola")).2 in
  body r = Some (failure_on "VALIDATION_MIN_LENGTH" "message") ∧
  ∃ members, failure_on "VALIDATION_MIN_LENGTH" "message" = JObj members ∧
    ((member (str "ok") members = Some (JBool true) ∧
      member (str "error") members = None ∧
      status r ∈ [200; 201]%Z) ∨
     (member (str "ok") members = Some (JBool false) ∧
      (∃ code, member (str "error") members = Some (JStr code)) ∧
      status r ∈ [400; 500]%Z)).
Proof.
  cbn zeta. split; [vm_compute; reflexivity|].
  apply (X11_ok_tells_success noon start (create_request "" "" "Hola")).
  vm_compute. reflexivity.
Defined.

(** Closes the cases of [X12_one_statement_at_most]: the statements run are
    given, and each condition either holds of them or cannot be met by the
    response at hand. *)
Ltac journal_case js :=
  exists js; split; [by rewrite ?app_nil_r|]; split; [simpl; lia|];
  repeat split;
  let H := fresh "Hcase" in
  first
    [ done
    | intros H; exfalso; revert H; apply (bool_decide_unpack _);
      vm_compute; exact I
    | intros H; apply (f_equal status) in H; discriminate H
    | intros H; apply (f_equal body) in H; vm_compute in H; discriminate H
    | intros _; by eauto
    | intros _ _; by eauto ].

(** X12.  A request costs the database one statement at most, and none when
    it is refused: nothing is run for the health route, for a request
    answered 400, 404 or 429, or for one whose handler throws; a listing
    runs its SELECT, a create request that passes the checks its INSERT,
    and DB_ERROR is the answer to a statement that was run and failed. *)
Theorem X12_one_statement_at_most (e : environment) (st : state)
    (req : request) :
  let st' := (app e st req).1 in
  let r := (app e st req).2 in
  ∃ js, journal (db st') = journal (db st) ++ js ∧ length js ≤ 1 ∧
    (req_route req = GET_health → js = []) ∧
    (status r ∈ [400; 404; 429]%Z → js = []) ∧
    (r = res_json 500 (failure "INTERNAL_ERROR") → js = []) ∧
    (r = res_json 500 (failure "DB_ERROR") → length js = 1) ∧
    (status r = 200%Z → req_route req = GET_comments →
       ∃ limit offset, js = [SelectComments limit offset]) ∧
    (status r = 201%Z →
       ∃ name email message date, js = [InsertComment name email message date]).
Proof.
  cbn zeta. unfold app. destruct (req_body req) as [err|b].
  { unfold error_middleware. case_match; cbn [fst snd]; journal_case (@nil statement). }
  destruct (req_route req) eqn:Hroute; cbn [fst snd].
  - journal_case (@nil statement).
  - unfold settle.
    destruct (get_comments _ _ _) as [[d' res]|] eqn:Hg; cbn [fst snd db].
    + apply get_comments_inv in Hg
        as (ln & on & _ & _ & -> & [->|(l & o & _ & _ & _ & _ & _ & ->)]);
        cbn [journal]; journal_case [SelectComments ln on].
    + journal_case (@nil statement).
  - destruct (RateLimit.hit _ _ _ _) as [c pass].
    destruct pass; [|cbn [fst snd db]; journal_case (@nil statement)].
    rewrite post_comments_read.
    destruct (field_text b "name") as [n|];
      [|cbn [settle fst snd db]; journal_case (@nil statement)].
    destruct (field_text b "email") as [m|];
      [|cbn [settle fst snd db]; journal_case (@nil statement)].
    destruct (field_text b "message") as [t|];
      [|cbn [settle fst snd db]; journal_case (@nil statement)].
    unfold settle.
    destruct (create_comment_case (storage_ok e) (current_timestamp e)
      (date_now e) (db st) (slice0 100 (trim n)) (slice0 150 (trim m))
      (trim t)) as [?|?|? ? Hno|d' id ? ? ? Hrun|d' ? ? ? Hrun];
      cbn [fst snd db]; try journal_case (@nil statement).
    + apply run_stored in Hrun as (_ & _ & -> & ->). cbn [journal].
      journal_case [InsertComment (slice0 100 (trim n)) (slice0 150 (trim m))
                      (trim t) (date_now e)].
    + apply run_failed in Hrun as (_ & ->). cbn [journal].
      journal_case [InsertComment (slice0 100 (trim n)) (slice0 150 (trim m))
                      (trim t) (date_now e)].
  - journal_case (@nil statement).
Qed.

Lemma ToString_scalar v : scalar v = true → is_Some (ToString v).
Proof. destruct v; try done; simpl; eauto. Qed.

Lemma field_text_scalar b k v :
  get b (str k) = Some v → scalar v = true → is_Some (field_text b k).
Proof.
  intros Hg Hs. unfold field_text. rewrite Hg. cbn [mbind option_bind].
  unfold or_else. destruct (truthy v) eqn:Ht; [|by eexists].
  destruct v; try done; simpl; eauto.
Qed.

Lemma list_limit_scalar q v :
  get q (str "limit") = Some v → scalar v = true → is_Some (list_limit q).
Proof.
  intros Hg Hs. unfold list_limit. rewrite Hg. cbn [mbind option_bind].
  destruct (ToString_scalar (or_else v (VStr (str "20")))) as [t ->];
    [|by eexists].
  unfold or_else. by destruct (truthy v).
Qed.

Lemma list_offset_scalar q v :
  get q (str "offset") = Some v → scalar v = true → is_Some (list_offset q).
Proof.
  intros Hg Hs. unfold list_offset. rewrite Hg. cbn [mbind option_bind].
  destruct (ToString_scalar (or_else v (VStr (str "0")))) as [t ->];
    [|by eexists].
  unfold or_else. by destruct (truthy v).
Qed.

(** X13.  INTERNAL_ERROR is never the answer to a request of the expected
    form: when the body was parsed and the fields the handlers read, where
    present, are strings, numbers, booleans or null, no handler throws. *)
Theorem X13_plain_fields_never_throw (e : environment) (st : state)
    (req : request) (b : value) :
  req_body req = Parsed b →
  Forall (λ k, ∃ v, get b (str k) = Some v ∧ scalar v = true)
    ["name"; "email"; "message"]%string →
  Forall (λ k, ∃ v, get (req_query req) (str k) = Some v ∧ scalar v = true)
    ["limit"; "offset"]%string →
  (app e st req).2 ≠ res_json 500 (failure "INTERNAL_ERROR").
Proof.
  intros Hb Hbody Hquery.
  apply Forall_cons in Hbody as [(vn & Hn & Sn) Hbody].
  apply Forall_cons in Hbody as [(vm & Hm & Sm) Hbody].
  apply Forall_cons in Hbody as [(vt & Ht & St) _].
  apply Forall_cons in Hquery as [(vl & Hl & Sl) Hquery].
  apply Forall_cons in Hquery as [(vo & Ho & So) _].
  unfold app. rewrite Hb. destruct (req_route req); cbn [snd].
  - intros H. apply (f_equal status) in H. discriminate H.
  - destruct (list_limit_scalar _ _ Hl Sl) as [ln Hln].
    destruct (list_offset_scalar _ _ Ho So) as [on Hon].
    unfold get_comments. rewrite Hln, Hon. cbn [mbind option_bind].
    destruct (Sqlite.all _ _ _ _) as [d' [rs|]]; cbn [settle snd].
    + intros H. apply (f_equal status) in H. discriminate H.
    + intros H. apply (f_equal body) in H. vm_compute in H. discriminate H.
  - destruct (RateLimit.hit _ _ _ _) as [c pass]. destruct pass; [|done].
    rewrite post_comments_read.
    destruct (field_text_scalar _ _ _ Hn Sn) as [n ->].
    destruct (field_text_scalar _ _ _ Hm Sm) as [m ->].
    destruct (field_text_scalar _ _ _ Ht St) as [t ->].
    unfold settle.
    destruct (create_comment_case (storage_ok e) (current_timestamp e)
      (date_now e) (db st) (slice0 100 (trim n)) (slice0 150 (trim m))
      (trim t)); cbn [snd]; intros Hr;
      first [ apply (f_equal status) in Hr; discriminate Hr
            | apply (f_equal body) in Hr; vm_compute in Hr; discriminate Hr ].
  - done.
Qed.

Lemma X13_plain_fields_never_throw_witness :
  let req :=
    {| req_route := POST_comments; req_scope := str "203.0.113.7";
       req_query := VObj [];
       req_body :=
         Parsed (VObj [(str "name", VNull);
                       (str "email", VBool false);
                       (str "message", VNum false (str "12345"))]) |} in
  (app noon start req).2 ≠ res_json 500 (failure "INTERNAL_ERROR") ∧
  status (app noon start req).2 = 201%Z.
Proof.
  cbn zeta. split; [|vm_compute; reflexivity].
  eapply X13_plain_fields_never_throw; [reflexivity| |].
  - repeat constructor; eexists; (split; [vm_compute; reflexivity|done]).
  - repeat constructor; eexists; (split; [vm_compute; reflexivity|done]).
Defined.

(** X14.  JSON_INVALID_BODY is the answer to a body the parser could not
    parse, and to nothing else: the error middleware gives it exactly for an
    error that is a SyntaxError carrying a [body], no handler ever gives it,
    and a request answered so has changed nothing, neither the table nor the
    counters of the limiter. *)
Theorem X14_invalid_body_answer (e : environment) (st : state)
    (req : request) :
  ((app e st req).2 = res_json 400 (failure "JSON_INVALID_BODY") ↔
   ∃ err, req_body req = Unparsed err ∧
          instanceof_SyntaxError err = true ∧ has_body err = true) ∧
  (∀ err, req_body req = Unparsed err → (app e st req).1 = st).
Proof.
  split; [|by unfold app; intros err ->].
  unfold app. destruct (req_body req) as [err|b].
  - unfold error_middleware. cbn [snd].
    destruct (instanceof_SyntaxError err) eqn:H1,
      (has_body err) eqn:H2; cbn [andb]; split;
      try (intros Hr; apply (f_equal status) in Hr; discriminate Hr);
      try (intros (err' & [= <-] & ? & ?); congruence).
    intros _. eauto.
  - split; [|by intros (err & ? & _)].
    intros Hr. exfalso. revert Hr.
    destruct (req_route req); cbn [snd].
    + intros Hr. apply (f_equal status) in Hr. discriminate Hr.
    + unfold settle.
      destruct (get_comments _ _ _) as [[d' res]|] eqn:Hg; cbn [snd].
      * apply get_comments_status in Hg. intros ->.
        revert Hg. apply (bool_decide_unpack _). vm_compute. exact I.
      * intros Hr. apply (f_equal status) in Hr. discriminate Hr.
    + destruct (RateLimit.hit _ _ _ _) as [c pass]. destruct pass; [|done].
      rewrite post_comments_read.
      destruct (field_text b "name") as [n|];
        [|intros Hr; apply (f_equal status) in Hr; discriminate Hr].
      destruct (field_text b "email") as [m|];
        [|intros Hr; apply (f_equal status) in Hr; discriminate Hr].
      destruct (field_text b "message") as [t|];
        [|intros Hr; apply (f_equal status) in Hr; discriminate Hr].
      unfold settle.
      destruct (create_comment_case (storage_ok e) (current_timestamp e)
        (date_now e) (db st) (slice0 100 (trim n)) (slice0 150 (trim m))
        (trim t)); cbn [snd]; intros Hr;
        first [ apply (f_equal status) in Hr; discriminate Hr
              | apply (f_equal body) in Hr; vm_compute in Hr;
                discriminate Hr ].
    + done.
Qed.

(** ** The origins allowed in production *)

Lemma lang_literal s w : lang (literal s) w ↔ w = s.
Proof.
  revert w. induction s as [|x s IH]; intros w; cbn [literal foldr].
  - split; [apply lang_eps_inv|intros ->; constructor].
  - fold (literal s). split.
    + intros (a & w' & -> & ->%lang_class_eq & ->%IH)%lang_cat_inv. done.
    + intros ->. apply (lang_cat _ _ [x] s); [by apply lang_class_eq|].
      by apply IH.
Qed.

Lemma letter_i_lower x c :
  (97 ≤ x ≤ 122)%N → ((c =? x) || (c =? x - 32))%N = true ↔ lower c = x.
Proof.
  intros Hx. unfold lower. rewrite orb_true_iff, !N.eqb_eq.
  destruct (N.leb_spec 65 c), (N.leb_spec c 90); cbn [andb]; lia.
Qed.

Lemma lang_literal_i s w :
  Forall (λ x, (97 ≤ x ≤ 122)%N) s →
  lang (literal_i s) w ↔ lower <$> w = s.
Proof.
  intros Hs. revert w.
  induction Hs as [|x s Hx _ IH]; intros w; cbn [literal_i foldr].
  - split.
    + by intros ->%lang_eps_inv.
    + intros ->%fmap_nil_inv. constructor.
  - fold (literal_i s). split.
    + intros (a & w' & -> & (c & -> & Hc)%lang_class_inv & Hw%IH)%lang_cat_inv.
      csimpl. f_equal; [|done]. by apply letter_i_lower.
    + destruct w as [|c w]; [done|]. csimpl. intros [= Hc Hw].
      apply (lang_cat _ _ [c] w); [|by apply IH].
      constructor. by apply letter_i_lower.
Qed.

Lemma lang_optional r w : lang (optional r) w ↔ w = [] ∨ lang r w.
Proof.
  unfold optional. split.
  - intros [->%lang_eps_inv|?]%lang_alt_inv; auto.
  - intros [->|?]; [apply lang_alt_l; constructor|by apply lang_alt_r].
Qed.

Lemma test_anywhere_spec r s :
  test_anywhere r s = true ↔
    ∃ pre m post, s = pre ++ m ++ post ∧ lang r m.
Proof.
  unfold test_anywhere. rewrite matches_lang. split.
  - intros (pre & s' & -> & _ & (m & post & -> & Hm & _)%lang_cat_inv)
      %lang_cat_inv. eauto.
  - intros (pre & m & post & -> & Hm).
    apply lang_cat; [by apply lang_star_class, Forall_true|].
    apply lang_cat; [done|]. by apply lang_star_class, Forall_true.
Qed.

Lemma apleno_anywhere s :
  test_anywhere apleno_pattern s = true ↔
    ∃ pre w post, s = pre ++ w ++ post ∧ lower <$> w = str "apleno".
Proof.
  assert (Forall (λ x, (97 ≤ x ≤ 122)%N) (str "apleno")) as Hletters
    by (apply (bool_decide_unpack _); vm_compute; exact I).
  rewrite test_anywhere_spec. unfold apleno_pattern. split.
  - intros (pre & m & post & -> & Hm).
    apply lang_cat_inv in Hm as (d1 & m' & -> & _ & Hm).
    apply lang_cat_inv in Hm as (w & d2 & -> & Hw & _).
    apply (lang_literal_i _ _ Hletters) in Hw.
    exists (pre ++ d1), w, (d2 ++ post). by rewrite <- !app_assoc.
  - intros (pre & w & post & -> & Hw). exists pre, w, post. split; [done|].
    apply (lang_cat _ _ [] w); [constructor|].
    rewrite <- (app_nil_r w).
    apply lang_cat; [by apply (lang_literal_i _ _ Hletters)|constructor].
Qed.

Lemma localhost_spec s :
  matches localhost_pattern s = true ↔
    ∃ scheme port,
      s = scheme ++ str "://localhost" ++ port ∧
      (scheme = str "http" ∨ scheme = str "https") ∧
      (port = [] ∨ ∃ ds, port = 58%N :: ds ∧ ds ≠ [] ∧
                         Forall (λ c, is_digit c = true) ds).
Proof.
  rewrite matches_lang. unfold localhost_pattern. split.
  - intros (h & s1 & -> & ->%lang_literal & H1)%lang_cat_inv.
    apply lang_cat_inv in H1 as (o & s2 & -> & Ho%lang_optional & H2).
    apply lang_cat_inv in H2 as (l & p & -> & ->%lang_literal & Hp%lang_optional).
    exists (str "http" ++ o), p. split; [by rewrite <- !app_assoc|]. split.
    + destruct Ho as [->|Ho]; [by left|].
      apply lang_class_eq in Ho as ->. by right.
    + destruct Hp as [->|Hp]; [by left|right].
      apply lang_cat_inv in Hp as (c & ds & -> & ->%lang_class_eq & Hds).
      apply lang_plus_class in Hds as [? ?]. eauto.
  - intros (scheme & port & -> & Hscheme & Hport).
    assert (lang (optional (Cat (chr 58%N) (Plus (Class is_digit)))) port) as Hp.
    { apply lang_optional. destruct Hport as [->|(ds & -> & ? & ?)]; [by left|].
      right. apply (lang_cat _ _ [58%N] ds); [by apply lang_class_eq|].
      by apply lang_plus_class. }
    assert (lang (Cat (literal (str "://localhost"))
                    (optional (Cat (chr 58%N) (Plus (Class is_digit)))))
              (str "://localhost" ++ port)) as Hl
      by (apply lang_cat; [by apply lang_literal|done]).
    destruct Hscheme as [-> | ->].
    + apply lang_cat; [by apply lang_literal|].
      apply (lang_cat _ _ [] _); [|done]. apply lang_optional. by left.
    + change (str "https") with (str "http" ++ [115%N]).
      rewrite <- app_assoc.
      apply lang_cat; [by apply lang_literal|].
      apply lang_cat; [|done]. apply lang_optional. right.
      by apply lang_class_eq.
Qed.

(** X15.  In production an origin is let in exactly when it is
    [http://localhost] or [https://localhost], with or without a port of
    decimal digits, or when the letters of apleno occur in it one after the
    other, capital or small, at any place; outside production every origin
    is let in. *)
Theorem X15_origins_let_in (NODE_ENV origin : jsstring) :
  (NODE_ENV ≠ str "production" → cors_allows NODE_ENV origin = true) ∧
  (cors_allows (str "production") origin = true ↔
     (∃ scheme port,
        origin = scheme ++ str "://localhost" ++ port ∧
        (scheme = str "http" ∨ scheme = str "https") ∧
        (port = [] ∨ ∃ ds, port = 58%N :: ds ∧ ds ≠ [] ∧
                           Forall (λ c, is_digit c = true) ds)) ∨
     (∃ pre w post,
        origin = pre ++ w ++ post ∧ lower <$> w = str "apleno")).
Proof.
  unfold cors_allows. split.
  - intros Hne. by rewrite bool_decide_eq_false_2.
  - rewrite bool_decide_eq_true_2 by done.
    unfold origin_patterns. cbn [existsb].
    rewrite orb_false_r, orb_true_iff, localhost_spec, apleno_anywhere. done.
Qed.

Lemma X15_origins_let_in_witness :
  cors_allows (str "development") (str "https://example.org") = true ∧
  cors_allows (str "production") (str "http://localhost:5173") = true ∧
  cors_allows (str "production") (str "https://evil.example/?x=APLENO") = true ∧
  cors_allows (str "production") (str "https://example.org") = false.
Proof.
  split; [|split; [|split]].
  - apply (proj1 (X15_origins_let_in (str "development")
                    (str "https://example.org"))).
    vm_compute. discriminate.
  - vm_compute. reflexivity.
  - apply (proj2 (X15_origins_let_in (str "production")
                    (str "https://evil.example/?x=APLENO"))).
    right. exists (str "https://evil.example/?x="), (str "APLENO"), [].
    split; vm_compute; reflexivity.
  - vm_compute. reflexivity.
Defined.
